(** * PharmaSee: the detection-and-resolution pipeline

    A shallow embedding of the decision logic of the medicine scanner
    (src/medicine_database.py, src/llm_analyzer.py, src/ocr_reader.py and
    src/medicine_scanner.py) together with the properties of its catalog
    matcher, response parser, classifier wrapper and scan scheduler.

    Conventions of the embedding:
    - a Python [str] is a [string] whose characters are the code points
      0..255; [lower], [strip] and [split] follow CPython on that range;
    - a Python [float] that is only compared (OCR confidence) is the
      rational it denotes, in [Q]; the extractor's filter
      [confidence >= threshold] removes NaN before the pipeline sees an
      observation;
    - the clock readings of [time.time()] and the scan interval are
      binary64 floats, in [float]: they are subtracted and compared as the
      machine does it, rounding included;
    - similarity scores and thresholds are Python [int]s, in [Z];
    - the external services (EasyOCR, the chat completion endpoint, the
      fuzzywuzzy scorer) are parameters of the sections that use them. *)

From Stdlib Require Import PrimFloat.
From Stdlib Require Import Bool Arith ZArith QArith Lia List Permutation Sorted.
From Stdlib Require Import Ascii String.
Import ListNotations.

Close Scope Q_scope.
Local Open Scope string_scope.
Local Open Scope list_scope.
Local Open Scope nat_scope.

(** ** Python string primitives *)

Module PyStr.

(** [str.isspace] on one character: TAB, LF, VT, FF, CR, the separators
    0x1C..0x1F, SPACE, NEL (0x85) and NBSP (0xA0). *)
Definition is_space (c : ascii) : bool :=
  let n := nat_of_ascii c in
  ((9 <=? n) && (n <=? 13)) || ((28 <=? n) && (n <=? 32))
  || (n =? 133) || (n =? 160).

(** [str.lower] on one character: A..Z and the Latin-1 capitals
    0xC0..0xDE (0xD7, the multiplication sign, apart) move up by 32. *)
Definition lower_char (c : ascii) : ascii :=
  let n := nat_of_ascii c in
  if ((65 <=? n) && (n <=? 90))
     || ((192 <=? n) && (n <=? 222) && negb (n =? 215))
  then ascii_of_nat (n + 32) else c.

Fixpoint lower (s : string) : string :=
  match s with
  | EmptyString => EmptyString
  | String c s' => String (lower_char c) (lower s')
  end.

Fixpoint lstrip (s : string) : string :=
  match s with
  | EmptyString => EmptyString
  | String c s' => if is_space c then lstrip s' else s
  end.

Fixpoint rstrip (s : string) : string :=
  match s with
  | EmptyString => EmptyString
  | String c s' =>
      match rstrip s' with
      | EmptyString => if is_space c then EmptyString else String c EmptyString
      | r => String c r
      end
  end.

(** [s.strip()] *)
Definition strip (s : string) : string := rstrip (lstrip s).

(** [s.split(sep)] for a one-character separator: never empty. *)
Fixpoint split (sep : ascii) (s : string) : list string :=
  match s with
  | EmptyString => [EmptyString]
  | String c s' =>
      if Ascii.eqb c sep then EmptyString :: split sep s'
      else match split sep s' with
           | [] => [String c EmptyString]
           | w :: ws => String c w :: ws
           end
  end.

(** [sep in s] *)
Fixpoint contains (sep : ascii) (s : string) : bool :=
  match s with
  | EmptyString => false
  | String c s' => Ascii.eqb c sep || contains sep s'
  end.

(** [s.split(sep, 1)] when [sep in s]: the text before the first
    separator and the text after it. *)
Fixpoint split_once (sep : ascii) (s : string) : option (string * string) :=
  match s with
  | EmptyString => None
  | String c s' =>
      if Ascii.eqb c sep then Some (EmptyString, s')
      else match split_once sep s' with
           | Some (k, v) => Some (String c k, v)
           | None => None
           end
  end.

(** [bool(s)]: only [''] is false. *)
Definition str_bool (s : string) : bool :=
  match s with
  | EmptyString => false
  | String _ _ => true
  end.

(** Truth value of an [Optional[str]]: [None] and [''] are false. *)
Definition truthy (o : option string) : bool :=
  match o with
  | Some s => str_bool s
  | None => false
  end.

Definition newline : ascii := ascii_of_nat 10.
Definition colon : ascii := ascii_of_nat 58.

(** ["\n".join(lines)] *)
Fixpoint join_lines (lines : list string) : string :=
  match lines with
  | [] => EmptyString
  | [l] => l
  | l :: rest => (l ++ String newline (join_lines rest))%string
  end.

End PyStr.

(** ** The catalog and its matcher (src/medicine_database.py) *)

Module MedicineDatabase.
Import PyStr.

Section Matcher.

(** [fuzz.ratio] of fuzzywuzzy, an integer similarity score. *)
Variable ratio : string -> string -> Z.

(** The first loop of [search_medicine]: the first entry equal to the
    normalised query once lower-cased. *)
Fixpoint exact_pass (query_lower : string) (medicines : list string)
  : option string :=
  match medicines with
  | [] => None
  | medicine :: rest =>
      if String.eqb (lower medicine) query_lower then Some medicine
      else exact_pass query_lower rest
  end.

(** The second loop of [search_medicine], from a given [best_match] and
    [best_score]. *)
Fixpoint fuzzy_pass (query_lower : string) (medicines : list string)
  (best_match : option string) (best_score : Z) : option string * Z :=
  match medicines with
  | [] => (best_match, best_score)
  | medicine :: rest =>
      let score := ratio query_lower (lower medicine) in
      if (score >? best_score)%Z
      then fuzzy_pass query_lower rest (Some medicine) score
      else fuzzy_pass query_lower rest best_match best_score
  end.

Definition search_medicine (medicines : list string) (query : string)
  (threshold : Z) : option string :=
  match medicines with
  | [] => None
  | _ =>
      let query_lower := strip (lower query) in
      match exact_pass query_lower medicines with
      | Some medicine => Some medicine
      | None =>
          let '(best_match, best_score) :=
            fuzzy_pass query_lower medicines None 0%Z in
          if (best_score >=? threshold)%Z then best_match else None
      end
  end.

(** [list.sort(key=lambda x: x[1], reverse=True)]: the stable sort by
    decreasing score. An element goes after the elements already placed
    whose score is strictly greater and before the others, all of which
    came later in the input. *)
Fixpoint insert_desc (m : string * Z) (sorted : list (string * Z))
  : list (string * Z) :=
  match sorted with
  | [] => [m]
  | m' :: rest =>
      if (snd m' >? snd m)%Z then m' :: insert_desc m rest
      else m :: sorted
  end.

Fixpoint sort_desc (matches : list (string * Z)) : list (string * Z) :=
  match matches with
  | [] => []
  | m :: rest => insert_desc m (sort_desc rest)
  end.

(** [l[:n]] for a Python [int] n: a negative n counts from the end. *)
Definition slice_to {A : Type} (n : Z) (l : list A) : list A :=
  if (0 <=? n)%Z then firstn (Z.to_nat n) l
  else firstn (Z.to_nat (Z.of_nat (List.length l) + n)) l.

(** The list comprehension of [get_best_matches]. *)
Definition scored (query_lower : string) (medicines : list string)
  : list (string * Z) :=
  map (fun medicine => (medicine, ratio query_lower (lower medicine)))
      medicines.

Definition get_best_matches (medicines : list string) (query : string)
  (top_n : Z) : list (string * Z) :=
  match medicines with
  | [] => []
  | _ =>
      let query_lower := strip (lower query) in
      let matches := scored query_lower medicines in
      slice_to top_n (sort_desc matches)
  end.

Definition is_valid_medicine (medicines : list string)
  (medicine_name : string) (threshold : Z) : bool :=
  match search_medicine medicines medicine_name threshold with
  | Some _ => true
  | None => false
  end.

End Matcher.

(** [x in medicines] *)
Definition mem (x : string) (medicines : list string) : bool :=
  existsb (String.eqb x) medicines.

(** [add_medicine] returns the new value of [self.medicines]. *)
Definition add_medicine (medicines : list string) (medicine_name : string)
  : list string :=
  let medicine_name := strip medicine_name in
  if str_bool medicine_name && negb (mem medicine_name medicines)
  then medicines ++ [medicine_name]
  else medicines.


End MedicineDatabase.

(** ** Calls to the outside world

    A computation that may call the remote chat completion service. The
    state is the log of the prompts submitted so far, oldest first; the
    result is a value or a raised [Exception], kept as its [str(e)]. *)

Module Eff.

Inductive outcome (A : Type) : Type :=
| Returned (a : A)
| Raised (msg : string).
Arguments Returned {A} a.
Arguments Raised {A} msg.

Definition CallLog : Type := list string.

Definition t (A : Type) : Type := CallLog -> outcome A * CallLog.

Definition ret {A : Type} (a : A) : t A := fun log => (Returned a, log).

Definition raise {A : Type} (msg : string) : t A :=
  fun log => (Raised msg, log).

Definition bind {A B : Type} (m : t A) (k : A -> t B) : t B :=
  fun log =>
    match m log with
    | (Returned a, log') => k a log'
    | (Raised msg, log') => (Raised msg, log')
    end.

(** [try: body  except Exception as e: handler(str(e))] *)
Definition try_except {A : Type} (body : t A) (handler : string -> t A)
  : t A :=
  fun log =>
    match body log with
    | (Returned a, log') => (Returned a, log')
    | (Raised msg, log') => handler msg log'
    end.

(** A step that cannot touch the service but may raise. *)
Definition lift {A : Type} (o : outcome A) : t A := fun log => (o, log).

Module Notations.
Notation "x <- m ;; k" := (bind m (fun x => k))
  (at level 61, m at next level, right associativity).
End Notations.

End Eff.

(** ** The classifier (src/llm_analyzer.py) *)

Module MedicineLLMAnalyzer.
Import PyStr Eff Eff.Notations.

(** The dictionary every path of the analyzer builds: the keys ['type'],
    ['use'], ['drug_class'] and ['form']. *)
Record MedicineInfo : Type := mkInfo {
  type : string;
  use : string;
  drug_class : string;
  form : string
}.

(** The [info] dictionary [_parse_llm_response] starts from. *)
Definition default_info : MedicineInfo :=
  mkInfo "Unknown" "Unknown" "Unknown" "Unknown".

(** The body of the loop of [_parse_llm_response] for one line. *)
Definition parse_line (info : MedicineInfo) (line : string) : MedicineInfo :=
  let line := strip line in
  if contains colon line then
    match split_once colon line with
    | Some (key, value) =>
        let key := lower (strip key) in
        let value := strip value in
        if String.eqb key "type" then
          mkInfo value (use info) (drug_class info) (form info)
        else if String.eqb key "use" then
          mkInfo (type info) value (drug_class info) (form info)
        else if String.eqb key "class" then
          mkInfo (type info) (use info) value (form info)
        else if String.eqb key "form" then
          mkInfo (type info) (use info) (drug_class info) value
        else info
    | None => info
    end
  else info.

Definition _parse_llm_response (response_text : string) : MedicineInfo :=
  let lines := split newline (strip response_text) in
  fold_left parse_line lines default_info.

Definition _create_medicine_analysis_prompt (medicine_name : string)
  : string :=
  join_lines
    [ "You are a pharmaceutical expert assistant. Analyze the following medicine name and provide structured information.";
      "";
      ("Medicine Name: " ++ medicine_name)%string;
      "";
      "Please provide the following information in a structured format:";
      "1. Medicine Type: (e.g., Antibiotic, Analgesic, Antacid, Antihistamine, etc.)";
      "2. Primary Use: (Brief description of what it's used for)";
      "3. Drug Class: (Pharmacological classification)";
      "4. Common Form: (Tablet, Capsule, Cream, Syrup, etc.)";
      "";
      "Format your response as follows:";
      "Type: [medicine type]";
      "Use: [primary use]";
      "Class: [drug class]";
      "Form: [common form]";
      "";
      "If you don't recognize the medicine name or it doesn't appear to be a valid medicine, respond with:";
      "Type: Unknown";
      "Use: Unable to determine - please verify medicine name";
      "Class: Unknown";
      "Form: Unknown" ].

(** What [client.chat.completions.create] returns: for each choice, its
    [message.content], which the service may leave [None]. *)
Record ChatCompletion : Type := mkCompletion {
  choices : list (option string)
}.

(** [response.choices[0].message.content.strip()] *)
Definition response_content_strip (response : ChatCompletion)
  : outcome string :=
  match choices response with
  | [] => Raised "list index out of range"
  | None :: _ => Raised "'NoneType' object has no attribute 'strip'"
  | Some content :: _ => Returned (strip content)
  end.

(** The dictionary of the [except] branch of [analyze_medicine]. *)
Definition error_info (e : string) : MedicineInfo :=
  mkInfo "Error" ("Failed to analyze: " ++ e)%string "Unknown" "Unknown".

Section Client.

(** The remote service: what one call answers, given the prompts already
    submitted and the prompt of this call. *)
Variable remote : CallLog -> string -> outcome ChatCompletion.

(** [self.client.chat.completions.create(...)]: one entry in the log. *)
Definition chat_completions_create (prompt : string) : Eff.t ChatCompletion :=
  fun log => (remote log prompt, log ++ [prompt]).

(** The [try] block of [analyze_medicine]. *)
Definition analyze_body (medicine_name : string) : Eff.t MedicineInfo :=
  let prompt := _create_medicine_analysis_prompt medicine_name in
  response <- chat_completions_create prompt ;;
  response_text <- lift (response_content_strip response) ;;
  ret (_parse_llm_response response_text).

Definition analyze_medicine (medicine_name : string) : Eff.t MedicineInfo :=
  try_except (analyze_body medicine_name)
             (fun e => ret (error_info e)).

Definition get_medicine_type (medicine_name : string) : Eff.t string :=
  analysis <- analyze_medicine medicine_name ;;
  ret (type analysis).

End Client.

End MedicineLLMAnalyzer.

(** ** The text extractor (src/ocr_reader.py) *)

Module OCRReader.
Import Eff.

Section Reader.

Variables Frame BBox : Type.

(** [self.reader.readtext], the EasyOCR engine: it returns its detections
    or raises. *)
Variable readtext : Frame -> outcome (list (BBox * string * Q)).

Variable confidence_threshold : Q.

Definition read_text_from_frame (frame : Frame) : list (string * Q) :=
  match readtext frame with
  | Returned results =>
      map (fun r => (snd (fst r), snd r))
          (filter (fun r => Qle_bool confidence_threshold (snd r)) results)
  | Raised _ => []
  end.

(** [read_text_from_image] is the same code over a path: the engine takes
    either, and [Frame] stands for what it is given. *)

(** [separator.join(items)] *)
Fixpoint join (separator : string) (items : list string) : string :=
  match items with
  | [] => EmptyString
  | [item] => item
  | item :: rest => (item ++ separator ++ join separator rest)%string
  end.

(** [get_all_text_from_frame] (and [get_all_text]) *)
Definition get_all_text_from_frame (frame : Frame) (separator : string)
  : string :=
  let results := read_text_from_frame frame in
  let text_items := map fst results in
  join separator text_items.

(** [max(results, key=lambda x: x[1])] from a first element on: a later
    item replaces the best one only when its key is strictly greater. *)
Fixpoint max_by_confidence (best : string * Q) (rest : list (string * Q))
  : string * Q :=
  match rest with
  | [] => best
  | o :: rest' =>
      if negb (Qle_bool (snd o) (snd best))
      then max_by_confidence o rest'
      else max_by_confidence best rest'
  end.

(** [get_highest_confidence_text_from_frame] (and
    [get_highest_confidence_text]) *)
Definition get_highest_confidence_text_from_frame (frame : Frame)
  : option (string * Q) :=
  let results := read_text_from_frame frame in
  match results with
  | [] => None
  | first :: rest => Some (max_by_confidence first rest)
  end.

End Reader.

End OCRReader.

(** ** The scanner (src/medicine_scanner.py) *)

Module MedicineScanner.
Import PyStr Eff Eff.Notations MedicineLLMAnalyzer.

(** The scanner state of [__init__], with the catalog of its
    [medicine_db]. The two times are floats; an [int] of the
    configuration, or the initial 0, stands for the float it converts
    to. *)
Record Scanner : Type := mkScanner {
  last_scan_time : float;
  scan_interval : float;
  last_detected_medicine : option string;
  last_analysis : option MedicineInfo;
  medicine_db : list string
}.

(** [_should_scan]; [current_time] is what its [time.time()] returns.
    The difference is the float difference, and [>=] the float order. *)
Definition _should_scan (s : Scanner) (current_time : float) : bool :=
  PrimFloat.leb (scan_interval s)
                (PrimFloat.sub current_time (last_scan_time s)).

(** [confidence > 0.7 and len(text_cleaned) > 3] *)
Definition high_confidence (confidence : Q) (text_cleaned : string) : bool :=
  negb (Qle_bool confidence (7 # 10)) && (3 <? String.length text_cleaned).

(** Key codes, as [ord] gives them. *)
Definition ord_q : Z := 113.
Definition ord_Q : Z := 81.
Definition ord_s : Z := 115.
Definition ord_S : Z := 83.
Definition ord_r : Z := 114.
Definition ord_R : Z := 82.

(** The [R] branch of [run]. *)
Definition reset_detection (s : Scanner) : Scanner :=
  mkScanner (last_scan_time s) (scan_interval s) None None (medicine_db s).

(** The scanner state [__init__] leaves, for a configured interval and a
    loaded catalog. *)
Definition initial (interval : float) (medicines : list string) : Scanner :=
  mkScanner 0 interval None None medicines.

(** The test of [_draw_ui_elements], [if medicine_name and analysis]: the
    analysis, a dictionary of four keys, is true whenever it is there. *)
Definition draws_results_panel (s : Scanner) : bool :=
  truthy (last_detected_medicine s) &&
  match last_analysis s with Some _ => true | None => false end.

Section Pipeline.

Variable ratio : string -> string -> Z.
Variable Frame : Type.
(** [self.ocr_reader.read_text_from_frame] *)
Variable read_text_from_frame : Frame -> list (string * Q).
Variable remote : CallLog -> string -> outcome ChatCompletion.

(** The [for] loop of [_detect_medicine_from_frame]; [search_medicine] is
    called with its default threshold, 80. *)
Fixpoint match_observations (medicines : list string)
  (text_results : list (string * Q)) : option string :=
  match text_results with
  | [] => None
  | (text, confidence) :: rest =>
      let text_cleaned := strip text in
      let matched_medicine :=
        MedicineDatabase.search_medicine ratio medicines text_cleaned 80 in
      if truthy matched_medicine then matched_medicine
      else if high_confidence confidence text_cleaned then Some text_cleaned
      else match_observations medicines rest
  end.

Definition _detect_medicine_from_frame (s : Scanner) (frame : Frame)
  : option string :=
  let text_results := read_text_from_frame frame in
  match text_results with
  | [] => None
  | _ => match_observations (medicine_db s) text_results
  end.

Definition _analyze_medicine_with_llm (medicine_name : string)
  : Eff.t MedicineInfo :=
  analyze_medicine remote medicine_name.

(** [_perform_scan]; [now] is what its [time.time()] returns. *)
Definition _perform_scan (now : float) (frame : Frame) (s : Scanner)
  : Eff.t Scanner :=
  let s := mkScanner now (scan_interval s) (last_detected_medicine s)
                     (last_analysis s) (medicine_db s) in
  let medicine_name := _detect_medicine_from_frame s frame in
  match medicine_name with
  | Some name =>
      if truthy medicine_name then
        analysis <- _analyze_medicine_with_llm name ;;
        ret (mkScanner (last_scan_time s) (scan_interval s)
                       (Some name) (Some analysis) (medicine_db s))
      else ret s
  | None => ret s
  end.

(** One turn of the loop of [run]: [capture] is the frame the camera
    delivered, if any; [wait_key] what [cv.waitKey(1)] returned;
    [t_check] and [t_scan] the clock readings of [_should_scan] and of
    [_perform_scan], were they to read it. The result is the next state,
    or [None] when the loop is left. *)
Definition run_iteration (capture : option Frame) (wait_key : Z)
  (t_check t_scan : float) (s : Scanner) : Eff.t (option Scanner) :=
  match capture with
  | None => ret None
  | Some frame =>
      let key := Z.land wait_key 255 in
      if (key =? ord_q)%Z || (key =? ord_Q)%Z then ret None
      else if (key =? ord_s)%Z || (key =? ord_S)%Z then
        s' <- _perform_scan t_scan frame s ;; ret (Some s')
      else if (key =? ord_r)%Z || (key =? ord_R)%Z then
        ret (Some (reset_detection s))
      else if _should_scan s t_check then
        s' <- _perform_scan t_scan frame s ;; ret (Some s')
      else ret (Some s)
  end.

End Pipeline.

End MedicineScanner.

(** ** The configuration (src/config_manager.py) *)

Module ConfigManager.
Import PyStr.

(** What [json.load] produces. A dictionary is the list of its items and
    is read by key; a float is the rational it denotes. *)
Local Unset Elimination Schemes.
Inductive json : Type :=
| JNull
| JBool (b : bool)
| JInt (z : Z)
| JFloat (q : Q)
| JString (s : string)
| JArray (items : list json)
| JObject (fields : list (string * json)).
Local Set Elimination Schemes.

(** The exceptions indexing by a string key can raise; [get] catches
    both. *)
Inductive index_error : Type :=
| KeyError (key : string)
| TypeError.

(** The exception of [get_openai_api_key]. *)
Inductive value_error : Type :=
| ValueError (msg : string).

Inductive result (E A : Type) : Type :=
| Ok (a : A)
| Err (e : E).
Arguments Ok {E A} a.
Arguments Err {E A} e.

Fixpoint lookup (key : string) (fields : list (string * json))
  : option json :=
  match fields with
  | [] => None
  | (k, v) :: rest => if String.eqb k key then Some v else lookup key rest
  end.

(** [d[key] = v] on the items of a dictionary: a present key keeps its
    place, a new one goes last. *)
Fixpoint update (key : string) (v : json) (fields : list (string * json))
  : list (string * json) :=
  match fields with
  | [] => [(key, v)]
  | (k, old) :: rest =>
      if String.eqb k key then (k, v) :: rest
      else (k, old) :: update key v rest
  end.

(** [value[key]] for a string key: only a dictionary can be indexed so. *)
Definition getitem (value : json) (key : string)
  : result index_error json :=
  match value with
  | JObject fields =>
      match lookup key fields with
      | Some v => Ok v
      | None => Err (KeyError key)
      end
  | _ => Err TypeError
  end.

(** [value[key] = v] for a string key. *)
Definition setitem (value : json) (key : string) (v : json)
  : result index_error json :=
  match value with
  | JObject fields => Ok (JObject (update key v fields))
  | _ => Err TypeError
  end.

(** The loop of [get] inside its [try]. *)
Fixpoint traverse (value : json) (keys : list string)
  : result index_error json :=
  match keys with
  | [] => Ok value
  | key :: rest =>
      match getitem value key with
      | Ok v => traverse v rest
      | Err e => Err e
      end
  end.

(** [get], called with the keys of a path and a default: [KeyError] and
    [TypeError] are caught. *)
Definition get (config : json) (keys : list string) (default : json)
  : json :=
  match traverse config keys with
  | Ok value => value
  | Err (KeyError _) => default
  | Err TypeError => default
  end.

(** Truth value of a loaded value. *)
Definition json_bool (v : json) : bool :=
  match v with
  | JNull => false
  | JBool b => b
  | JInt z => negb (z =? 0)%Z
  | JFloat q => negb (Qeq_bool q 0)
  | JString s => str_bool s
  | JArray items => match items with [] => false | _ => true end
  | JObject fields => match fields with [] => false | _ => true end
  end.

(** [_override_from_env]; [env_api_key] is what
    [os.getenv('OPENAI_API_KEY')] returns. The result is the new value of
    [self.config]. *)
Definition _override_from_env (env_api_key : option string) (config : json)
  : result index_error json :=
  if truthy env_api_key then
    match env_api_key with
    | Some key =>
        match getitem config "openai" with
        | Ok section =>
            match setitem section "api_key" (JString key) with
            | Ok section' => setitem config "openai" section'
            | Err e => Err e
            end
        | Err e => Err e
        end
    | None => Ok config
    end
  else Ok config.

(** [__init__] once [_load_config] has read [loaded] from the file. *)
Definition init (loaded : json) (env_api_key : option string)
  : result index_error json :=
  _override_from_env env_api_key loaded.

Definition missing_key_message : string :=
  "OpenAI API key not found. Please set it in config/config.json or set the OPENAI_API_KEY environment variable.".

Definition get_openai_api_key (config : json) : result value_error json :=
  let api_key := get config ["openai"; "api_key"] (JString "") in
  if negb (json_bool api_key) then Err (ValueError missing_key_message)
  else Ok api_key.

Definition get_openai_model (config : json) : json :=
  get config ["openai"; "model"] (JString "gpt-3.5-turbo").

Definition get_openai_temperature (config : json) : json :=
  get config ["openai"; "temperature"] (JFloat (3 # 10)).

Definition get_openai_max_tokens (config : json) : json :=
  get config ["openai"; "max_tokens"] (JInt 200).

Definition get_camera_index (config : json) : json :=
  get config ["camera"; "device_index"] (JInt 0).

Definition get_camera_resolution (config : json) : json * json :=
  let width := get config ["camera"; "frame_width"] (JInt 1280) in
  let height := get config ["camera"; "frame_height"] (JInt 720) in
  (width, height).

Definition get_ocr_languages (config : json) : json :=
  get config ["ocr"; "languages"] (JArray [JString "en"]).

Definition get_ocr_confidence_threshold (config : json) : json :=
  get config ["ocr"; "confidence_threshold"] (JFloat (1 # 2)).

Definition get_scan_interval (config : json) : json :=
  get config ["scanner"; "scan_interval_seconds"] (JFloat 2).

End ConfigManager.

(** ** A concrete scorer for worked examples *)

Module Fuzz.

(** Length of a longest common subsequence. *)
Fixpoint lcs (a b : string) : nat :=
  match a with
  | EmptyString => 0
  | String x a' =>
      (fix inner (b : string) : nat :=
         match b with
         | EmptyString => 0
         | String y b' =>
             if Ascii.eqb x y then S (lcs a' b')
             else Nat.max (lcs a' b) (inner b')
         end) b
  end.

(** [int(round(n / d))] for [d > 0]: ties go to the even neighbour. *)
Definition round_half_even (n d : Z) : Z :=
  let q := (n / d)%Z in
  let r := (n mod d)%Z in
  if (2 * r <? d)%Z then q
  else if (d <? 2 * r)%Z then (q + 1)%Z
  else if Z.even q then q else (q + 1)%Z.

(** Modelled from the spec: the scorer, fuzzywuzzy's [fuzz.ratio], is a
    library outside the repository; the spec calls it "a normalized
    edit-distance similarity score (0-100)". As in that library, equal
    arguments score 100 and an empty argument scores 0; otherwise the
    score is [round(100 * 2 * M / T)] with [T] the total length and [M] the
    number of characters kept by a shortest insert-and-delete edit script.
    The general theorems below hold for any scorer; this one only feeds
    the worked examples. *)
Definition fuzz_ratio (s1 s2 : string) : Z :=
  if String.eqb s1 s2 then 100%Z
  else if (String.length s1 =? 0) || (String.length s2 =? 0) then 0%Z
  else round_half_even (200 * Z.of_nat (lcs s1 s2))
                       (Z.of_nat (String.length s1 + String.length s2)).

End Fuzz.

(** ** Vocabulary of the statements about the matcher *)

Module Ranking.
Import PyStr MedicineDatabase.

Section Scores.

Variable ratio : string -> string -> Z.

(** The score [search_medicine] gives an entry for a normalised query. *)
Definition score_of (key medicine : string) : Z := ratio key (lower medicine).

(** [hit] is the first entry of [medicines] with the greatest score. *)
Definition first_best (key : string) (medicines : list string)
  (hit : string) : Prop :=
  exists before after,
    medicines = before ++ hit :: after /\
    Forall (fun m => (score_of key m < score_of key hit)%Z) before /\
    Forall (fun m => (score_of key m <= score_of key hit)%Z) after.

End Scores.

(** The order of the result: no score rises from left to right. *)
Definition score_ge (a b : string * Z) : Prop := (snd a >= snd b)%Z.

(** The entries of a scored list that carry the score [v], in order. *)
Definition with_score (v : Z) (l : list (string * Z)) : list (string * Z) :=
  filter (fun m => (snd m =? v)%Z) l.

End Ranking.

(** ** Vocabulary of the statements about the parser *)

Module Labels.
Import PyStr MedicineLLMAnalyzer.

(** What a line says, read as the contract has it: trimmed and cut at its
    first colon, the key trimmed and lower-cased, the value trimmed. A
    line without colon says nothing. *)
Definition labelled (line : string) : option (string * string) :=
  match split_once colon (strip line) with
  | Some (key, value) => Some (lower (strip key), strip value)
  | None => None
  end.

(** The values the lines of a text give for the key [k], in order. *)
Definition values_in (k : string) (lines : list string) : list string :=
  flat_map (fun line =>
              match labelled line with
              | Some (key, value) => if String.eqb key k then [value] else []
              | None => []
              end) lines.

Definition values_of (k : string) (response_text : string) : list string :=
  values_in k (split newline (strip response_text)).

(** The field for the key [k]: the value of the last line labelled [k],
    and ["Unknown"] when there is none. *)
Definition field_value (k : string) (response_text : string) : string :=
  last (values_of k response_text) "Unknown".

(** The two responses of the contract's example. *)
Definition full_response : string :=
  join_lines ["Type: Analgesic"; "Use: Pain relief"; "Class: NSAID";
              "Form: Tablet"].

Definition response_without_form : string :=
  join_lines ["Type: Analgesic"; "Use: Pain relief"; "Class: NSAID"].

End Labels.

(** ** Vocabulary of the statements about the pipeline *)

Module Acceptance.
Import PyStr MedicineDatabase MedicineScanner.

Section Policy.

Variable ratio : string -> string -> Z.
Variable medicines : list string.

(** What the body of the loop decides for one observation. *)
Definition verdict (o : string * Q) : option string :=
  let text_cleaned := strip (fst o) in
  let matched_medicine := search_medicine ratio medicines text_cleaned 80 in
  if truthy matched_medicine then matched_medicine
  else if high_confidence (snd o) text_cleaned then Some text_cleaned
  else None.

(** The answer of the catalog for one observation. *)
Definition catalog_answer (o : string * Q) : option string :=
  search_medicine ratio medicines (strip (fst o)) 80.

(** (i) the catalog answers with a name that is not empty. *)
Definition catalog_accepts (o : string * Q) (name : string) : Prop :=
  catalog_answer o = Some name /\ name <> "".

(** (ii) the catalog gives no such name, the confidence is above 0.7 and
    the trimmed text is longer than 3 characters: the trimmed text is
    taken as it is. *)
Definition unverified_accepts (o : string * Q) (name : string) : Prop :=
  (forall m, catalog_answer o = Some m -> m = "") /\
  (7 # 10 < snd o)%Q /\
  3 < String.length (strip (fst o)) /\
  name = strip (fst o).

Definition accepts (o : string * Q) (name : string) : Prop :=
  catalog_accepts o name \/ unverified_accepts o name.

Definition rejects (o : string * Q) : Prop := forall name, ~ accepts o name.

(** The acceptance rule with any answer of the catalog counting as a
    match: an observation the catalog answers for at all, all earlier ones
    having no answer and no high confidence, decides the result with that
    answer. *)
Definition first_answer_returned (text_results : list (string * Q)) : Prop :=
  forall before o after m,
    text_results = before ++ o :: after ->
    Forall (fun p => catalog_answer p = None /\
                     high_confidence (snd p) (strip (fst p)) = false) before ->
    catalog_answer o = Some m ->
    match_observations ratio medicines text_results = Some m.

End Policy.

End Acceptance.

(** ** Stand-ins for the outside world in worked examples *)

Module Doubles.
Import Eff MedicineLLMAnalyzer MedicineScanner.

(** A service that is down. *)
Definition unreachable : CallLog -> string -> outcome ChatCompletion :=
  fun _ _ => Raised "Connection error.".

(** A service that always answers with the full four-line response. *)
Definition analgesic : CallLog -> string -> outcome ChatCompletion :=
  fun _ _ =>
    Returned (mkCompletion
      [Some (PyStr.join_lines ["Type: Analgesic"; "Use: Pain relief";
                               "Class: NSAID"; "Form: Tablet"])]).

(** An extractor whose frames are the observations themselves. *)
Definition Frame : Type := list (string * Q).
Definition read_text_from_frame (frame : Frame) : list (string * Q) := frame.

(** A frame without text. *)
Definition blank : Frame := [].

(** A scanner that resolved Aspirin at time 100 and scans every 2 s. *)
Definition resolved : Scanner :=
  mkScanner 100 2 (Some "Aspirin")
            (Some (mkInfo "Analgesic" "Pain relief" "NSAID" "Tablet"))
            ["Aspirin"; "Ibuprofen"].

(** A reset that would also rewind the scan timer, at one state and one
    instant: after the reset the cache is empty and an automatic scan is
    due at once. *)
Definition reset_then_eligible (s : Scanner) (now : float) : Prop :=
  forall s',
    fst (run_iteration Fuzz.fuzz_ratio Frame read_text_from_frame unreachable
                       (Some blank) ord_r now now s []) = Returned (Some s') ->
    last_detected_medicine s' = None /\
    last_analysis s' = None /\
    _should_scan s' now = true.

(** An engine that finds three texts in every frame. *)
Definition three_texts : unit -> outcome (list (unit * string * Q)) :=
  fun _ => Returned [(tt, "Aspirin", (9 # 10)%Q); (tt, "500", (4 # 10)%Q);
                     (tt, "mg", (9 # 10)%Q)].

End Doubles.

(** ** Vocabulary of the further properties *)

Module Invariants.
Import PyStr MedicineLLMAnalyzer MedicineScanner.

(** A string without blank at either end. *)
Definition trimmed (s : string) : Prop := strip s = s.

(** A string without line break. *)
Definition single_line (s : string) : Prop := contains newline s = false.

(** A value a field of a parsed response may take. *)
Definition clean (s : string) : Prop := trimmed s /\ single_line s.

(** The two halves of the cache go together: no medicine and no
    analysis, or a medicine with a name that is not empty and its
    analysis. *)
Definition coherent (s : Scanner) : Prop :=
  (last_detected_medicine s = None /\ last_analysis s = None) \/
  (exists name analysis,
      last_detected_medicine s = Some name /\ name <> "" /\
      last_analysis s = Some analysis).

(** A turn of the loop in which no command key is down; [cv.waitKey]
    then returns -1, which is such a value. *)
Definition no_command (wait_key : Z) : Prop :=
  ~ In (Z.land wait_key 255) [ord_q; ord_Q; ord_s; ord_S; ord_r; ord_R].

End Invariants.

(** * Properties *)

(** ** Facts about the string primitives *)

Module StrFacts.
Import PyStr.

Lemma is_space_lower_char (c : ascii) :
  is_space (lower_char c) = is_space c.
Proof.
  destruct c as [[] [] [] [] [] [] [] []]; vm_compute; reflexivity.
Qed.

Lemma lower_lstrip (s : string) : lstrip (lower s) = lower (lstrip s).
Proof.
  induction s as [|c s IH]; simpl; [reflexivity|].
  rewrite is_space_lower_char.
  destruct (is_space c); [exact IH | reflexivity].
Qed.

Lemma lower_rstrip (s : string) : rstrip (lower s) = lower (rstrip s).
Proof.
  induction s as [|c s IH]; simpl; [reflexivity|].
  rewrite IH, is_space_lower_char.
  destruct (rstrip s) as [|c' r]; simpl.
  - destruct (is_space c); reflexivity.
  - reflexivity.
Qed.

(** Lower-casing and trimming commute, so the order in which
    [search_medicine] applies them does not matter. *)
Lemma strip_lower (s : string) : strip (lower s) = lower (strip s).
Proof.
  unfold strip. rewrite lower_lstrip. apply lower_rstrip.
Qed.

Lemma str_bool_true (s : string) : str_bool s = true <-> s <> "".
Proof.
  destruct s; simpl; split; intro H; try congruence; try discriminate.
Qed.

Lemma truthy_inv (o : option string) :
  truthy o = true -> exists s, o = Some s /\ s <> "".
Proof.
  destruct o as [[|c s]|]; simpl; intro H; try discriminate.
  exists (String c s). split; [reflexivity | discriminate].
Qed.

End StrFacts.

(** ** The text extractor *)

Module ExtractorProps.
Import Eff OCRReader.

Section Reader.

Variables Frame BBox : Type.
Variable readtext : Frame -> outcome (list (BBox * string * Q)).
Variable confidence_threshold : Q.

(** A failure of the engine is an empty sequence of observations. *)
Lemma read_text_from_frame_failure (frame : Frame) (e : string) :
  readtext frame = Raised e ->
  read_text_from_frame Frame BBox readtext confidence_threshold frame = [].
Proof.
  intro H. unfold read_text_from_frame. rewrite H. reflexivity.
Qed.

(** Every observation delivered reaches the confidence threshold. *)
Lemma read_text_from_frame_confident (frame : Frame) :
  Forall (fun o => (confidence_threshold <= snd o)%Q)
         (read_text_from_frame Frame BBox readtext confidence_threshold frame).
Proof.
  unfold read_text_from_frame.
  destruct (readtext frame) as [results|e]; [|constructor].
  apply Forall_forall. intros o Ho.
  apply in_map_iff in Ho. destruct Ho as (r & <- & Hr).
  apply filter_In in Hr. destruct Hr as [_ Hr].
  apply Qle_bool_iff. exact Hr.
Qed.

End Reader.

End ExtractorProps.

(** ** The catalog matcher *)

Module MatcherProps.
Import PyStr MedicineDatabase StrFacts Ranking.

(** [exact_pass] finds the first entry whose lower-cased text is the
    key, splitting the catalog around it. *)
Lemma exact_pass_Some (key : string) (medicines : list string) (hit : string) :
  exact_pass key medicines = Some hit <->
  exists before after,
    medicines = before ++ hit :: after /\
    Forall (fun m => lower m <> key) before /\
    lower hit = key.
Proof.
  induction medicines as [|m rest IH]; simpl.
  - split; [discriminate|].
    intros (before & after & E & _). destruct before; discriminate.
  - destruct (String.eqb_spec (lower m) key) as [Heq|Hne].
    + split.
      * intros [= <-]. exists [], rest. repeat split; auto.
      * intros (before & after & E & Hb & Hh).
        destruct before as [|b before]; simpl in E.
        -- injection E as -> _. reflexivity.
        -- injection E as -> _. inversion Hb; subst. contradiction.
    + rewrite IH. split.
      * intros (before & after & -> & Hb & Hh).
        exists (m :: before), after. repeat split; auto.
      * intros (before & after & E & Hb & Hh).
        destruct before as [|b before]; simpl in E.
        -- injection E as -> _. contradiction.
        -- injection E as -> ->. inversion Hb; subst.
           exists before, after. repeat split; auto.
Qed.

Lemma exact_pass_None (key : string) (medicines : list string) :
  exact_pass key medicines = None <->
  Forall (fun m => lower m <> key) medicines.
Proof.
  induction medicines as [|m rest IH]; simpl.
  - split; auto.
  - destruct (String.eqb_spec (lower m) key) as [Heq|Hne].
    + split; [discriminate|]. intro H. inversion H; subst. contradiction.
    + rewrite IH. split; [auto | intro H; inversion H; auto].
Qed.

Lemma exact_pass_In (key : string) (medicines : list string) (e : string) :
  In e medicines -> lower e = key ->
  exists hit, exact_pass key medicines = Some hit.
Proof.
  intros Hin He.
  destruct (exact_pass key medicines) as [hit|] eqn:E; [eauto|].
  apply exact_pass_None in E. rewrite Forall_forall in E.
  exfalso. exact (E e Hin He).
Qed.

(** When the exact pass hits, [search_medicine] returns that hit, whatever
    the scorer and the threshold. *)
Lemma search_medicine_exact (ratio : string -> string -> Z)
  (medicines : list string) (query : string) (threshold : Z) (hit : string) :
  exact_pass (strip (lower query)) medicines = Some hit ->
  search_medicine ratio medicines query threshold = Some hit.
Proof.
  intro E. unfold search_medicine.
  destruct medicines as [|m rest]; [discriminate|].
  rewrite E. reflexivity.
Qed.

(** C3. For a catalog entry [e] and a query that, once trimmed, equals
    [e] up to letter casing, [search_medicine] returns the first entry of
    the catalog that equals [e] up to casing: the same entry for every
    scorer and every threshold, so the fuzzy pass has no say; and that
    entry is [e] itself whenever no entry before [e] equals it up to
    casing. *)
Theorem search_medicine_exact_hit
  (medicines : list string) (e query : string) :
  In e medicines ->
  lower (strip query) = lower e ->
  exists before hit after,
    medicines = before ++ hit :: after /\
    Forall (fun m => lower m <> lower e) before /\
    lower hit = lower e /\
    (forall (ratio : string -> string -> Z) (threshold : Z),
        search_medicine ratio medicines query threshold = Some hit) /\
    (forall l1 l2, medicines = l1 ++ e :: l2 ->
                   Forall (fun m => lower m <> lower e) l1 -> hit = e).
Proof.
  intros Hin Hq.
  rewrite <- strip_lower in Hq.
  destruct (exact_pass_In (lower e) medicines e Hin eq_refl) as [hit Hhit].
  pose proof Hhit as Hsplit.
  apply exact_pass_Some in Hsplit.
  destruct Hsplit as (before & after & Hm & Hb & Hh).
  exists before, hit, after. repeat split; auto.
  - intros ratio threshold. apply search_medicine_exact.
    rewrite Hq. exact Hhit.
  - intros l1 l2 El Hl1.
    assert (Hx : exact_pass (lower e) medicines = Some e).
    { apply exact_pass_Some. exists l1, l2. repeat split; auto. }
    congruence.
Qed.

Lemma search_medicine_exact_hit_witness :
  search_medicine Fuzz.fuzz_ratio ["Ibuprofen"; "Aspirin"]
                  "  ASPIRIN " 101 = Some "Aspirin".
Proof.
  destruct (search_medicine_exact_hit
              ["Ibuprofen"; "Aspirin"] "Aspirin" "  ASPIRIN ")
    as (before & hit & after & _ & _ & _ & Hs & Hfirst).
  - simpl. auto.
  - reflexivity.
  - rewrite (Hs Fuzz.fuzz_ratio 101%Z). f_equal.
    apply (Hfirst ["Ibuprofen"] []); [reflexivity|].
    repeat constructor. discriminate.
Defined.

(** With two entries equal up to casing the earlier one is returned, also
    for a query spelled like the later one. *)
Example search_medicine_first_casing_wins :
  search_medicine Fuzz.fuzz_ratio ["Ibuprofen"; "aspirin"; "Aspirin"]
                  "Aspirin" 80 = Some "aspirin".
Proof. reflexivity. Qed.

Section Fuzzy.

Variable ratio : string -> string -> Z.

(** The second loop either keeps the pair it started from, no entry
    scoring above it, or ends on the first entry with the greatest score. *)
Lemma fuzzy_pass_spec (key : string) (medicines : list string) :
  forall (best_match : option string) (best_score : Z),
    (fuzzy_pass ratio key medicines best_match best_score
       = (best_match, best_score) /\
     Forall (fun m => (score_of ratio key m <= best_score)%Z) medicines)
    \/
    (exists hit,
        fuzzy_pass ratio key medicines best_match best_score
          = (Some hit, score_of ratio key hit) /\
        (best_score < score_of ratio key hit)%Z /\
        first_best ratio key medicines hit).
Proof.
  induction medicines as [|m rest IH]; intros bm bs; simpl.
  - left. auto.
  - fold (score_of ratio key m).
    destruct (Z.gtb_spec (score_of ratio key m) bs) as [Hgt|Hle].
    + right.
      destruct (IH (Some m) (score_of ratio key m))
        as [[E Hall] | (hit & E & Hlt & before & after & -> & Hb & Ha)].
      * exists m. rewrite E. repeat split; auto.
        exists [], rest. repeat split; auto.
      * exists hit. rewrite E. repeat split; [lia|].
        exists (m :: before), after. repeat split; auto.
    + destruct (IH bm bs)
        as [[E Hall] | (hit & E & Hlt & before & after & -> & Hb & Ha)].
      * left. rewrite E. split; auto.
      * right. exists hit. rewrite E. repeat split; auto.
        exists (m :: before), after. repeat split; auto.
        constructor; [lia | exact Hb].
Qed.

Lemma first_best_unique (key : string) (medicines : list string)
  (h1 h2 : string) :
  first_best ratio key medicines h1 -> first_best ratio key medicines h2 -> h1 = h2.
Proof.
  intros (b1 & a1 & E1 & Hb1 & Ha1). revert medicines E1.
  induction b1 as [|x b1 IH]; intros medicines E1
    (b2 & a2 & E2 & Hb2 & Ha2); rewrite E1 in E2.
  - destruct b2 as [|y b2]; simpl in E2.
    + congruence.
    + injection E2 as Ey Ea. subst y a1. inversion Hb2; subst.
      apply Forall_app in Ha1. destruct Ha1 as [_ Ha1].
      inversion Ha1; subst. lia.
  - destruct b2 as [|y b2]; simpl in E2.
    + injection E2 as Ex Ea. subst x a2. inversion Hb1; subst.
      apply Forall_app in Ha2. destruct Ha2 as [_ Ha2].
      inversion Ha2; subst. lia.
    + injection E2 as Ex E2. inversion Hb1; subst. inversion Hb2; subst.
      apply (IH H2 (b1 ++ h1 :: a1) eq_refl).
      exists b2, a2. auto.
Qed.

(** What the fuzzy pass of [search_medicine] returns for a scorer that is
    query without exact hit: the first entry with the greatest score,
    provided that score reaches the threshold and is above zero. *)
Lemma search_medicine_fuzzy (medicines : list string) (query : string)
  (threshold : Z) (hit : string) :
  exact_pass (strip (lower query)) medicines = None ->
  (search_medicine ratio medicines query threshold = Some hit <->
   first_best ratio (strip (lower query)) medicines hit /\
   (threshold <= score_of ratio (strip (lower query)) hit)%Z /\
   (0 < score_of ratio (strip (lower query)) hit)%Z).
Proof.
  intros Hex. unfold search_medicine.
  destruct medicines as [|m0 rest0]; [| rewrite Hex].
  - split; [discriminate|].
    intros [(b & a & E & _) _]. destruct b; discriminate.
  - set (key := strip (lower query)) in *.
    set (medicines := m0 :: rest0) in *.
    destruct (fuzzy_pass_spec key medicines None 0)
      as [[E Hall] | (h & E & Hlt & Hfb)]; rewrite E.
    + split.
      * destruct (0 >=? threshold)%Z; discriminate.
      * intros [(b & a & Em & _) [_ Hp]]. exfalso.
        rewrite Forall_forall in Hall.
        assert (Hin : In hit medicines) by (rewrite Em; apply in_elt).
        specialize (Hall hit Hin). lia.
    + destruct (Z.geb_spec (score_of ratio key h) threshold) as [Hge|Hlt'].
      * split.
        -- intros [= <-]. repeat split; auto; lia.
        -- intros [Hfb' _]. f_equal.
           exact (first_best_unique key medicines h hit Hfb Hfb').
      * split; [discriminate|].
        intros [Hfb' [Ht _]].
        rewrite (first_best_unique key medicines h hit Hfb Hfb') in Hlt'.
        lia.
Qed.

(** C4, at the inputs where the code departs from it. When no entry
    scores above zero the second loop never replaces its initial
    [best_match = None], and [search_medicine] returns [None] for every
    threshold, also for a threshold of zero or less, which the greatest
    score, 0, reaches. *)
Theorem search_medicine_zero_scores (medicines : list string)
  (query : string) (threshold : Z) :
  exact_pass (strip (lower query)) medicines = None ->
  Forall (fun m => (score_of ratio (strip (lower query)) m <= 0)%Z) medicines ->
  search_medicine ratio medicines query threshold = None.
Proof.
  intros Hex Hall. unfold search_medicine.
  destruct medicines as [|m0 rest0]; [reflexivity | rewrite Hex].
  destruct (fuzzy_pass_spec (strip (lower query)) (m0 :: rest0) None 0)
    as [[E _] | (h & _ & Hlt & b & a & Em & _)].
  - rewrite E. destruct (0 >=? threshold)%Z; reflexivity.
  - exfalso. rewrite Forall_forall in Hall.
    assert (Hin : In h (m0 :: rest0)) by (rewrite Em; apply in_elt).
    specialize (Hall h Hin). lia.
Qed.

End Fuzzy.

Lemma search_medicine_zero_scores_witness :
  (Fuzz.fuzz_ratio "" "aspirin" >= 0)%Z /\
  search_medicine Fuzz.fuzz_ratio ["Aspirin"] "" 0 = None.
Proof.
  split; [vm_compute; discriminate|].
  apply (search_medicine_zero_scores Fuzz.fuzz_ratio ["Aspirin"] "" 0%Z).
  - reflexivity.
  - repeat constructor. vm_compute. discriminate.
Defined.

(** *** [get_best_matches] *)

Lemma insert_desc_In (m x : string * Z) (l : list (string * Z)) :
  In x (insert_desc m l) -> x = m \/ In x l.
Proof.
  induction l as [|y l IH]; simpl.
  - intros [<-|[]]. auto.
  - destruct (snd y >? snd m)%Z; simpl.
    + intros [<-|H]; [auto | destruct (IH H); auto].
    + intros [<-|[<-|H]]; auto.
Qed.

Lemma insert_desc_sorted (m : string * Z) (l : list (string * Z)) :
  StronglySorted score_ge l -> StronglySorted score_ge (insert_desc m l).
Proof.
  induction 1 as [|y l Hs IH Hy]; simpl.
  - repeat constructor.
  - destruct (Z.gtb_spec (snd y) (snd m)) as [Hgt|Hle].
    + constructor; [exact IH|].
      rewrite Forall_forall in *. intros x Hx.
      destruct (insert_desc_In _ _ _ Hx) as [->|Hin].
      * unfold score_ge. lia.
      * auto.
    + constructor; [constructor; assumption|].
      constructor; [unfold score_ge; lia|].
      rewrite Forall_forall in *. intros x Hx.
      specialize (Hy x Hx). unfold score_ge in *. lia.
Qed.

Lemma sort_desc_sorted (l : list (string * Z)) :
  StronglySorted score_ge (sort_desc l).
Proof.
  induction l as [|m l IH]; simpl; [constructor|].
  apply insert_desc_sorted, IH.
Qed.

Lemma insert_desc_perm (m : string * Z) (l : list (string * Z)) :
  Permutation (insert_desc m l) (m :: l).
Proof.
  induction l as [|y l IH]; simpl; [reflexivity|].
  destruct (snd y >? snd m)%Z; [|reflexivity].
  rewrite IH. apply perm_swap.
Qed.

Lemma sort_desc_perm (l : list (string * Z)) : Permutation (sort_desc l) l.
Proof.
  induction l as [|m l IH]; simpl; [reflexivity|].
  rewrite insert_desc_perm. constructor. exact IH.
Qed.

(** Inserting [m] puts it in front of the entries of its own score. *)
Lemma with_score_insert (v : Z) (m : string * Z) (l : list (string * Z)) :
  with_score v (insert_desc m l) =
  if (snd m =? v)%Z then m :: with_score v l else with_score v l.
Proof.
  induction l as [|y l IH]; simpl; [reflexivity|].
  destruct (Z.gtb_spec (snd y) (snd m)) as [Hgt|Hle]; simpl.
  - rewrite IH.
    destruct (Z.eqb_spec (snd m) v) as [Hm|Hm];
      destruct (Z.eqb_spec (snd y) v) as [Hy|Hy]; try reflexivity; lia.
  - reflexivity.
Qed.

(** The sort is stable: entries of one score keep their input order. *)
Lemma sort_desc_stable (v : Z) (l : list (string * Z)) :
  with_score v (sort_desc l) = with_score v l.
Proof.
  induction l as [|m l IH]; simpl; [reflexivity|].
  rewrite with_score_insert, IH. reflexivity.
Qed.

Lemma slice_to_prefix {A : Type} (n : Z) (l : list A) :
  exists dropped, l = slice_to n l ++ dropped.
Proof.
  unfold slice_to. destruct (0 <=? n)%Z.
  - exists (skipn (Z.to_nat n) l). symmetry. apply firstn_skipn.
  - exists (skipn (Z.to_nat (Z.of_nat (List.length l) + n)) l).
    symmetry. apply firstn_skipn.
Qed.

Lemma sorted_prefix (l1 l2 : list (string * Z)) :
  StronglySorted score_ge (l1 ++ l2) -> StronglySorted score_ge l1.
Proof.
  induction l1 as [|x l1 IH]; simpl; intro H; [constructor|].
  inversion H; subst. constructor; [auto|].
  apply Forall_app in H3. tauto.
Qed.

(** C9. The list [get_best_matches] returns is sorted by decreasing
    score, and for every score the entries of the result with that score
    are, in catalog order, the first entries of the catalog with that
    score; the result is the scored catalog less the entries sliced off. *)
Theorem get_best_matches_sorted_stable (ratio : string -> string -> Z)
  (medicines : list string) (query : string) (top_n : Z) :
  let result := get_best_matches ratio medicines query top_n in
  let catalog := scored ratio (strip (lower query)) medicines in
  StronglySorted score_ge result /\
  (forall v, exists later, with_score v catalog = with_score v result ++ later) /\
  (exists dropped, Permutation (result ++ dropped) catalog).
Proof.
  intros result catalog.
  assert (Hr : result = slice_to top_n (sort_desc catalog)).
  { unfold result, catalog, get_best_matches.
    destruct medicines; [|reflexivity].
    simpl. unfold slice_to. destruct (0 <=? top_n)%Z; now rewrite firstn_nil. }
  destruct (slice_to_prefix top_n (sort_desc catalog)) as [dropped Hd].
  rewrite <- Hr in Hd.
  repeat split.
  - apply (sorted_prefix result dropped). rewrite <- Hd. apply sort_desc_sorted.
  - intro v. exists (with_score v dropped).
    rewrite <- (sort_desc_stable v catalog), Hd.
    unfold with_score. apply filter_app.
  - exists dropped. rewrite <- Hd. apply sort_desc_perm.
Qed.

(** *** [add_medicine] *)

Lemma mem_In (x : string) (medicines : list string) :
  mem x medicines = true <-> In x medicines.
Proof.
  unfold mem. rewrite existsb_exists. split.
  - intros (y & Hy & E). apply String.eqb_eq in E. now subst.
  - intro H. exists x. split; [exact H | apply String.eqb_refl].
Qed.

(** C10. [add_medicine] appends the trimmed name when it is not empty and
    not yet an entry, and otherwise changes nothing; either way the old
    catalog is a prefix of the new one, at most one entry longer, a
    catalog without repeated entries stays so, and every string occurs as
    often as before, but for the appended name, absent before and present
    once after. *)
Theorem add_medicine_append_only (medicines : list string)
  (medicine_name : string) :
  let name := strip medicine_name in
  let medicines' := add_medicine medicines medicine_name in
  (name <> "" /\ ~ In name medicines -> medicines' = medicines ++ [name]) /\
  (name = "" \/ In name medicines -> medicines' = medicines) /\
  (exists added, medicines' = medicines ++ added /\ List.length added <= 1) /\
  (NoDup medicines -> NoDup medicines') /\
  (forall x,
      count_occ string_dec medicines' x = count_occ string_dec medicines x \/
      (count_occ string_dec medicines x = 0 /\
       count_occ string_dec medicines' x = 1)).
Proof.
  intros name medicines'. unfold medicines', add_medicine. fold name.
  destruct (str_bool name) eqn:Ht; simpl.
  - apply str_bool_true in Ht.
    destruct (mem name medicines) eqn:Hm; simpl.
    + apply mem_In in Hm. repeat split; auto.
      * intros [_ Hn]. contradiction.
      * exists []. rewrite app_nil_r. auto.
    + assert (Hn : ~ In name medicines).
      { intro H. apply mem_In in H. congruence. }
      repeat split; auto.
      * intros [H|H]; contradiction.
      * exists [name]. auto.
      * intro Hnd.
        apply (Permutation_NoDup (Permutation_cons_append medicines name)).
        constructor; assumption.
      * intro x. rewrite count_occ_app. simpl.
        destruct (string_dec name x) as [<-|_]; [right | left; lia].
        apply (count_occ_not_In string_dec) in Hn. lia.
  - assert (He : name = "").
    { destruct name; [reflexivity | discriminate]. }
    repeat split; auto.
    + intros [Hne _]. contradiction.
    + exists []. rewrite app_nil_r. auto.
Qed.

Lemma add_medicine_append_only_witness :
  add_medicine ["Aspirin"] " Ibuprofen " = ["Aspirin"; "Ibuprofen"] /\
  add_medicine ["Aspirin"] " Aspirin " = ["Aspirin"].
Proof.
  split.
  - apply (proj1 (add_medicine_append_only ["Aspirin"] " Ibuprofen ")).
    split; [discriminate | simpl; intros [H|[]]; discriminate].
  - apply (proj1 (proj2 (add_medicine_append_only ["Aspirin"] " Aspirin "))).
    right. simpl. auto.
Defined.

End MatcherProps.

(** ** The response parser *)

Module ParserProps.
Import PyStr MedicineLLMAnalyzer StrFacts Labels.

Lemma split_once_contains (c : ascii) (s : string) :
  contains c s = false -> split_once c s = None.
Proof.
  induction s as [|x s IH]; simpl; [reflexivity|].
  destruct (Ascii.eqb x c); simpl; [discriminate|].
  intro H. rewrite (IH H). reflexivity.
Qed.

Lemma last_cons {A : Type} (x d : A) (l : list A) :
  last (x :: l) d = last l x.
Proof.
  revert x d. induction l as [|y l IH]; intros x d; [reflexivity|].
  change (last (x :: y :: l) d) with (last (y :: l) d).
  rewrite (IH y d), (IH y x). reflexivity.
Qed.

(** One line either sets the field of its key or leaves the dictionary
    as it is. *)
Lemma parse_line_cases (info : MedicineInfo) (line : string) :
  match labelled line with
  | Some (key, value) =>
      parse_line info line =
        if String.eqb key "type" then
          mkInfo value (use info) (drug_class info) (form info)
        else if String.eqb key "use" then
          mkInfo (type info) value (drug_class info) (form info)
        else if String.eqb key "class" then
          mkInfo (type info) (use info) value (form info)
        else if String.eqb key "form" then
          mkInfo (type info) (use info) (drug_class info) value
        else info
  | None => parse_line info line = info
  end.
Proof.
  unfold labelled, parse_line.
  destruct (contains colon (strip line)) eqn:Hc.
  - destruct (split_once colon (strip line)) as [[key value]|]; reflexivity.
  - rewrite (split_once_contains _ _ Hc). reflexivity.
Qed.

Lemma fold_parse_line (lines : list string) :
  forall info,
    fold_left parse_line lines info =
    mkInfo (last (values_in "type" lines) (type info))
           (last (values_in "use" lines) (use info))
           (last (values_in "class" lines) (drug_class info))
           (last (values_in "form" lines) (form info)).
Proof.
  induction lines as [|line lines IH]; intro info.
  - destruct info; reflexivity.
  - simpl fold_left. rewrite IH.
    pose proof (parse_line_cases info line) as Hl.
    unfold values_in. simpl flat_map.
    fold (values_in "type" lines) (values_in "use" lines)
         (values_in "class" lines) (values_in "form" lines).
    destruct (labelled line) as [[key value]|].
    + destruct (String.eqb_spec key "type") as [->|Ht].
      { rewrite Hl. cbn -[last values_in]. rewrite last_cons. reflexivity. }
      destruct (String.eqb_spec key "use") as [->|Hu].
      { rewrite Hl. cbn -[last values_in]. rewrite last_cons. reflexivity. }
      destruct (String.eqb_spec key "class") as [->|Hk].
      { rewrite Hl. cbn -[last values_in]. rewrite last_cons. reflexivity. }
      destruct (String.eqb_spec key "form") as [->|Hf].
      { rewrite Hl. cbn -[last values_in]. rewrite last_cons. reflexivity. }
      rewrite Hl. reflexivity.
    + rewrite Hl. reflexivity.
Qed.

(** C5. [_parse_llm_response] is total and always yields the four fields:
    each field is the value of the last line labelled with its key (lines
    cut at their first colon, keys compared after trimming and
    lower-casing), and ["Unknown"] when no line carries the key; a line
    that is not labelled with one of the four keys changes nothing; and
    the two responses of the contract parse as it says. *)
Theorem parse_llm_response_fields (response_text : string) :
  _parse_llm_response response_text =
    mkInfo (field_value "type" response_text)
           (field_value "use" response_text)
           (field_value "class" response_text)
           (field_value "form" response_text) /\
  (forall k, values_of k response_text = [] ->
             field_value k response_text = "Unknown") /\
  (forall info line,
      (forall key value, labelled line = Some (key, value) ->
                         ~ In key ["type"; "use"; "class"; "form"]) ->
      parse_line info line = info) /\
  _parse_llm_response full_response =
    mkInfo "Analgesic" "Pain relief" "NSAID" "Tablet" /\
  _parse_llm_response response_without_form =
    mkInfo "Analgesic" "Pain relief" "NSAID" "Unknown".
Proof.
  repeat split.
  - unfold _parse_llm_response, field_value, values_of.
    apply fold_parse_line.
  - intros k Hk. unfold field_value. rewrite Hk. reflexivity.
  - intros info line Hkey.
    pose proof (parse_line_cases info line) as Hl.
    destruct (labelled line) as [[key value]|]; [|exact Hl].
    specialize (Hkey key value eq_refl). simpl in Hkey.
    destruct (String.eqb_spec key "type"); [exfalso; apply Hkey; subst key; auto 6|].
    destruct (String.eqb_spec key "use"); [exfalso; apply Hkey; subst key; auto 6|].
    destruct (String.eqb_spec key "class"); [exfalso; apply Hkey; subst key; auto 6|].
    destruct (String.eqb_spec key "form"); [exfalso; apply Hkey; subst key; auto 6|].
    exact Hl.
Qed.

Lemma parse_llm_response_fields_witness :
  values_of "form" response_without_form = [] /\
  form (_parse_llm_response response_without_form) = "Unknown".
Proof.
  split; [reflexivity|].
  destruct (parse_llm_response_fields response_without_form)
    as (Hfields & Hmissing & _).
  rewrite Hfields. simpl form.
  apply Hmissing. reflexivity.
Defined.

End ParserProps.

(** ** The classifier *)

Module ClassifierProps.
Import PyStr Eff MedicineLLMAnalyzer.

Section Client.

Variable remote : CallLog -> string -> outcome ChatCompletion.

(** The [try] block submits its prompt exactly once, however it ends. *)
Lemma analyze_body_log (medicine_name : string) (log : CallLog) :
  snd (analyze_body remote medicine_name log) =
  log ++ [_create_medicine_analysis_prompt medicine_name].
Proof.
  unfold analyze_body, bind, chat_completions_create, lift, ret.
  destruct (remote log _) as [response|e]; [|reflexivity].
  destruct (response_content_strip response); reflexivity.
Qed.

(** The [try] block raises exactly when the call raises or the response
    has no usable first choice. *)
Lemma analyze_body_raises (medicine_name : string) (log : CallLog)
  (e : string) :
  fst (analyze_body remote medicine_name log) = Raised e <->
  (remote log (_create_medicine_analysis_prompt medicine_name) = Raised e \/
   exists response,
     remote log (_create_medicine_analysis_prompt medicine_name)
       = Returned response /\
     response_content_strip response = Raised e).
Proof.
  unfold analyze_body, bind, chat_completions_create, lift, ret.
  destruct (remote log _) as [response|e'].
  - destruct (response_content_strip response) as [text|e''] eqn:Hr; simpl.
    + split; [discriminate|].
      intros [H|(r & [= <-] & H)]; congruence.
    + split.
      * intros [= <-]. right. exists response. auto.
      * intros [H|(r & [= <-] & H)]; congruence.
  - simpl. split.
    + intros [= <-]. auto.
    + intros [H|(r & H & _)]; congruence.
Qed.

(** The handler turns both endings of the [try] block into a returned
    dictionary. *)
Lemma analyze_medicine_total (medicine_name : string) (log : CallLog) :
  exists info,
    analyze_medicine remote medicine_name log =
    (Returned info, log ++ [_create_medicine_analysis_prompt medicine_name]).
Proof.
  pose proof (analyze_body_log medicine_name log) as Hlog.
  unfold analyze_medicine, try_except.
  destruct (analyze_body remote medicine_name log) as [[info|e] log'];
    simpl in Hlog; subst log'; eexists; reflexivity.
Qed.

(** C6. [analyze_medicine] always returns a dictionary and never raises;
    it submits one prompt to the service, no more; and when the call
    raises, or the handling of its response does, with message [e], the
    dictionary is the degraded one: type ["Error"], use
    ["Failed to analyze: "] followed by [e], class and form
    ["Unknown"]. *)
Theorem analyze_medicine_never_raises (medicine_name : string)
  (log : CallLog) :
  let prompt := _create_medicine_analysis_prompt medicine_name in
  exists info,
    analyze_medicine remote medicine_name log
      = (Returned info, log ++ [prompt]) /\
    (forall e,
        remote log prompt = Raised e \/
        (exists response,
            remote log prompt = Returned response /\
            response_content_strip response = Raised e) ->
        info = error_info e /\
        type info = "Error" /\
        use info = ("Failed to analyze: " ++ e)%string /\
        drug_class info = "Unknown" /\
        form info = "Unknown").
Proof.
  intro prompt.
  pose proof (analyze_body_log medicine_name log) as Hlog.
  pose proof (analyze_body_raises medicine_name log) as Hraise.
  fold prompt in Hlog, Hraise.
  unfold analyze_medicine, try_except.
  destruct (analyze_body remote medicine_name log) as [[info|e0] log'].
  - simpl in Hlog. subst log'. exists info. split; [reflexivity|].
    intros e He. apply Hraise in He. discriminate.
  - simpl in Hlog. subst log'. exists (error_info e0).
    split; [reflexivity|].
    intros e He. apply Hraise in He. simpl in He.
    injection He as ->. repeat split.
Qed.

End Client.

Import Doubles.

Lemma analyze_medicine_never_raises_witness :
  fst (analyze_medicine unreachable "Aspirin" []) =
  Returned (mkInfo "Error" "Failed to analyze: Connection error."
                   "Unknown" "Unknown").
Proof.
  destruct (analyze_medicine_never_raises unreachable "Aspirin" [])
    as (info & Hrun & Hfail).
  rewrite Hrun. simpl. f_equal.
  destruct (Hfail "Connection error.") as [-> _]; [|reflexivity].
  left. reflexivity.
Defined.

(** A response without choices is a failure of the handling, not of the
    call, and degrades the same way. *)
Example analyze_medicine_no_choice :
  analyze_medicine (fun _ _ => Returned (mkCompletion [])) "Aspirin" [] =
  (Returned (mkInfo "Error" "Failed to analyze: list index out of range"
                    "Unknown" "Unknown"),
   [_create_medicine_analysis_prompt "Aspirin"]).
Proof. reflexivity. Qed.

End ClassifierProps.

(** ** The resolution pipeline *)

Module PipelineProps.
Import PyStr Eff MedicineDatabase MedicineLLMAnalyzer MedicineScanner.
Import StrFacts Acceptance.

Lemma high_confidence_spec (confidence : Q) (text_cleaned : string) :
  high_confidence confidence text_cleaned = true <->
  (7 # 10 < confidence)%Q /\ 3 < String.length text_cleaned.
Proof.
  unfold high_confidence. rewrite andb_true_iff, negb_true_iff, Nat.ltb_lt.
  split; intros [Hc Hl]; split; auto.
  - apply Qnot_le_lt. intro H. apply Qle_bool_iff in H. congruence.
  - destruct (Qle_bool confidence (7 # 10)) eqn:E; [|reflexivity].
    apply Qle_bool_iff in E. exfalso. exact (Qlt_not_le _ _ Hc E).
Qed.

Section Policy.

Variable ratio : string -> string -> Z.
Variable medicines : list string.

Lemma match_observations_cons (o : string * Q) (rest : list (string * Q)) :
  match_observations ratio medicines (o :: rest) =
  match verdict ratio medicines o with
  | Some name => Some name
  | None => match_observations ratio medicines rest
  end.
Proof.
  destruct o as [text confidence]. unfold verdict. simpl.
  destruct (truthy _) eqn:Ht.
  - apply truthy_inv in Ht. destruct Ht as (n & -> & _). reflexivity.
  - destruct (high_confidence _ _); reflexivity.
Qed.

Lemma verdict_accepts (o : string * Q) (name : string) :
  verdict ratio medicines o = Some name <-> accepts ratio medicines o name.
Proof.
  unfold verdict, accepts, catalog_accepts, unverified_accepts, catalog_answer.
  destruct (truthy _) eqn:Ht.
  - pose proof (truthy_inv _ Ht) as (n & En & Hn). rewrite En. split.
    + intros [= <-]. left. auto.
    + intros [[[= <-] _] | [Hno _]]; [reflexivity|].
      exfalso. apply Hn. apply Hno. reflexivity.
  - assert (Hno : forall m,
               search_medicine ratio medicines (strip (fst o)) 80 = Some m ->
               m = "").
    { intros m Em. rewrite Em in Ht. destruct m; [reflexivity | discriminate]. }
    destruct (high_confidence _ _) eqn:Hh.
    + apply high_confidence_spec in Hh. destruct Hh as [Hc Hl]. split.
      * intros [= <-]. right. auto.
      * intros [[Em Hne] | (_ & _ & _ & ->)]; [|reflexivity].
        exfalso. apply Hne. apply Hno. exact Em.
    + split; [discriminate|].
      intros [[Em Hne] | (_ & Hc & Hl & _)].
      * exfalso. apply Hne. apply Hno. exact Em.
      * assert (Hh' : high_confidence (snd o) (strip (fst o)) = true)
          by (apply high_confidence_spec; auto).
        congruence.
Qed.

Lemma verdict_rejects (o : string * Q) :
  verdict ratio medicines o = None <-> rejects ratio medicines o.
Proof.
  unfold rejects. split.
  - intros E name Ha. apply verdict_accepts in Ha. congruence.
  - intro Hr. destruct (verdict ratio medicines o) as [name|] eqn:E; [|reflexivity].
    apply verdict_accepts in E. exfalso. exact (Hr name E).
Qed.

Lemma match_observations_Some (text_results : list (string * Q))
  (name : string) :
  match_observations ratio medicines text_results = Some name <->
  exists before o after,
    text_results = before ++ o :: after /\
    Forall (rejects ratio medicines) before /\
    accepts ratio medicines o name.
Proof.
  induction text_results as [|o rest IH].
  - split; [discriminate|].
    intros (before & o & after & E & _). destruct before; discriminate.
  - rewrite match_observations_cons.
    destruct (verdict ratio medicines o) as [n|] eqn:Ed.
    + split.
      * intros [= <-]. exists [], o, rest.
        split; [reflexivity|]. split; [constructor|].
        apply verdict_accepts. exact Ed.
      * intros (before & o' & after & E & Hb & Ha).
        destruct before as [|b before]; simpl in E.
        -- injection E as <- _. apply verdict_accepts in Ha. congruence.
        -- injection E as <- _. inversion Hb; subst.
           apply verdict_rejects in H1. congruence.
    + rewrite IH. split.
      * intros (before & o' & after & -> & Hb & Ha).
        exists (o :: before), o', after.
        split; [reflexivity|]. split; [|exact Ha].
        constructor; [apply verdict_rejects; exact Ed | exact Hb].
      * intros (before & o' & after & E & Hb & Ha).
        destruct before as [|b before]; simpl in E.
        -- injection E as <- _. apply verdict_accepts in Ha. congruence.
        -- injection E as <- ->. inversion Hb; subst.
           exists before, o', after. auto.
Qed.

Lemma match_observations_None (text_results : list (string * Q)) :
  match_observations ratio medicines text_results = None <->
  Forall (rejects ratio medicines) text_results.
Proof.
  induction text_results as [|o rest IH].
  - split; [constructor | reflexivity].
  - rewrite match_observations_cons.
    destruct (verdict ratio medicines o) as [n|] eqn:Ed.
    + split; [discriminate|]. intro H. inversion H; subst.
      apply verdict_rejects in H2. congruence.
    + rewrite IH. split.
      * intro H. constructor; [apply verdict_rejects; exact Ed | exact H].
      * intro H. inversion H; auto.
Qed.

(** A resolved name is never the empty string. *)
Lemma match_observations_truthy (text_results : list (string * Q))
  (name : string) :
  match_observations ratio medicines text_results = Some name ->
  truthy (Some name) = true.
Proof.
  intro H. apply match_observations_Some in H.
  destruct H as (_ & o & _ & _ & _ & [[_ Hne] | (_ & _ & Hl & ->)]).
  - apply str_bool_true. exact Hne.
  - destruct (strip (fst o)); [simpl in Hl; lia | reflexivity].
Qed.

End Policy.

Section Scan.

Variable ratio : string -> string -> Z.
Variable Frame : Type.
Variable read_text_from_frame : Frame -> list (string * Q).
Variable remote : CallLog -> string -> outcome ChatCompletion.

Local Abbreviation detect :=
  (_detect_medicine_from_frame ratio Frame read_text_from_frame).
Local Abbreviation scan :=
  (_perform_scan ratio Frame read_text_from_frame remote).

Lemma detect_match_observations (s : Scanner) (frame : Frame) :
  detect s frame =
  match_observations ratio (medicine_db s) (read_text_from_frame frame).
Proof.
  unfold _detect_medicine_from_frame.
  destruct (read_text_from_frame frame); reflexivity.
Qed.

(** C1, amended. [_detect_medicine_from_frame] goes through the
    observations in the order the extractor delivered them and returns
    the name of the first one it accepts: the catalog's answer when that
    is a name that is not empty, else the trimmed text when the
    confidence is above 0.7 and the trimmed text longer than 3
    characters. What follows the first accepted observation has no
    influence, and the result is absent exactly when every observation
    is rejected. *)
Theorem detect_first_accepted (s : Scanner) (frame : Frame) :
  (forall name,
      detect s frame = Some name <->
      exists before o after,
        read_text_from_frame frame = before ++ o :: after /\
        Forall (rejects ratio (medicine_db s)) before /\
        accepts ratio (medicine_db s) o name) /\
  (detect s frame = None <->
   Forall (rejects ratio (medicine_db s)) (read_text_from_frame frame)) /\
  (forall before o after name,
      read_text_from_frame frame = before ++ o :: after ->
      Forall (rejects ratio (medicine_db s)) before ->
      accepts ratio (medicine_db s) o name ->
      forall after',
        match_observations ratio (medicine_db s) (before ++ o :: after')
          = detect s frame).
Proof.
  rewrite detect_match_observations. repeat split.
  - apply match_observations_Some.
  - apply match_observations_Some.
  - apply match_observations_None.
  - apply match_observations_None.
  - intros before o after name E Hb Ha after'.
    transitivity (Some name).
    + apply match_observations_Some. exists before, o, after'. auto.
    + symmetry. apply match_observations_Some.
      exists before, o, after. auto.
Qed.

Lemma perform_scan_unfold (now : float) (frame : Frame) (s : Scanner) :
  scan now frame s =
  let s0 := mkScanner now (scan_interval s) (last_detected_medicine s)
                      (last_analysis s) (medicine_db s) in
  match detect s frame with
  | Some name =>
      bind (analyze_medicine remote name)
           (fun analysis =>
              ret (mkScanner now (scan_interval s) (Some name)
                             (Some analysis) (medicine_db s)))
  | None => ret s0
  end.
Proof.
  unfold _perform_scan, _analyze_medicine_with_llm.
  change (_detect_medicine_from_frame ratio Frame read_text_from_frame
            (mkScanner now (scan_interval s) (last_detected_medicine s)
                       (last_analysis s) (medicine_db s)) frame)
    with (detect s frame).
  destruct (detect s frame) as [name|] eqn:Ed; [|reflexivity].
  rewrite detect_match_observations in Ed.
  rewrite (match_observations_truthy _ _ _ _ Ed). reflexivity.
Qed.

(** C7. When the extractor delivers no observation for a frame,
    [_detect_medicine_from_frame] returns nothing and [_perform_scan]
    ends without a call to the classifier: the log of submitted prompts is
    as it was, and only the time of the last scan has changed. *)
Theorem no_observation_no_classification (s : Scanner) (frame : Frame)
  (now : float) (log : CallLog) :
  read_text_from_frame frame = [] ->
  detect s frame = None /\
  scan now frame s log =
    (Returned (mkScanner now (scan_interval s) (last_detected_medicine s)
                         (last_analysis s) (medicine_db s)),
     log).
Proof.
  intro Hempty.
  assert (Hd : detect s frame = None).
  { unfold _detect_medicine_from_frame. rewrite Hempty. reflexivity. }
  split; [exact Hd|].
  rewrite perform_scan_unfold, Hd. reflexivity.
Qed.

(** C8. Every scan attempt returns, with the time of the last scan set
    to the clock reading taken at its start and the interval as it was,
    so that from then on an automatic scan is due exactly when the float
    difference between the clock and that reading reaches the interval,
    after a failed attempt as after a successful one; and an attempt that
    resolves no medicine leaves the cached medicine and analysis, and the
    log of the classifier, as they were. *)
Theorem scan_attempt_effects (s : Scanner) (frame : Frame) (now : float)
  (log : CallLog) :
  exists s' log',
    scan now frame s log = (Returned s', log') /\
    last_scan_time s' = now /\
    scan_interval s' = scan_interval s /\
    (forall t,
        _should_scan s' t
          = PrimFloat.leb (scan_interval s) (PrimFloat.sub t now)) /\
    (detect s frame = None ->
     log' = log /\
     last_detected_medicine s' = last_detected_medicine s /\
     last_analysis s' = last_analysis s).
Proof.
  rewrite perform_scan_unfold.
  destruct (detect s frame) as [name|] eqn:Ed.
  - destruct (ClassifierProps.analyze_medicine_total remote name log)
      as (info & Hrun).
    eexists. eexists. unfold bind. rewrite Hrun.
    split; [reflexivity|]. simpl.
    do 2 (split; [reflexivity|]). split; [intro t; reflexivity|].
    discriminate.
  - eexists. eexists. split; [reflexivity|]. simpl.
    do 2 (split; [reflexivity|]). split; [intro t; reflexivity|].
    intros _. repeat split.
Qed.

End Scan.

Import Doubles.

Local Abbreviation detect_on :=
  (_detect_medicine_from_frame Fuzz.fuzz_ratio Doubles.Frame
                               Doubles.read_text_from_frame).

Lemma detect_first_accepted_witness :
  detect_on resolved [("Aspirn", (6 # 10)%Q); ("Ibuprofen", (9 # 10)%Q)]
  = Some "Aspirin".
Proof.
  apply (proj1 (detect_first_accepted Fuzz.fuzz_ratio Doubles.Frame
                  Doubles.read_text_from_frame resolved
                  [("Aspirn", (6 # 10)%Q); ("Ibuprofen", (9 # 10)%Q)])).
  exists [], ("Aspirn", (6 # 10)%Q), [("Ibuprofen", (9 # 10)%Q)].
  split; [reflexivity|]. split; [constructor|].
  left. split; [vm_compute; reflexivity | discriminate].
Defined.

(** C1 as worded fails when the catalog holds the empty name: the first
    observation, an empty text, gets the answer [""] from the catalog, is
    passed over all the same, and the second one decides. *)
Lemma first_answer_not_returned :
  ~ first_answer_returned Fuzz.fuzz_ratio [""; "Aspirin"]
      [("", (9 # 10)%Q); ("Aspirin", (9 # 10)%Q)].
Proof.
  intro H.
  specialize (H [] ("", (9 # 10)%Q) [("Aspirin", (9 # 10)%Q)] ""
                eq_refl (Forall_nil _) eq_refl).
  vm_compute in H. discriminate.
Qed.

(** The examples of the contract. *)
Example detect_unverified_name :
  detect_on resolved [("XYZ123", (9 # 10)%Q)] = Some "XYZ123".
Proof. vm_compute. reflexivity. Qed.

Example detect_short_text :
  detect_on resolved [("ab", (95 # 100)%Q)] = None.
Proof. vm_compute. reflexivity. Qed.

Example detect_first_wins :
  detect_on resolved [(" Zyrtexx ", (8 # 10)%Q); ("Aspirin", (99 # 100)%Q)]
  = Some "Zyrtexx".
Proof. vm_compute. reflexivity. Qed.

Lemma no_observation_no_classification_witness :
  _perform_scan Fuzz.fuzz_ratio Doubles.Frame Doubles.read_text_from_frame
                analgesic 105 [] resolved []
  = (Returned (mkScanner 105 2 (last_detected_medicine resolved)
                         (last_analysis resolved) (medicine_db resolved)),
     []).
Proof.
  apply (no_observation_no_classification Fuzz.fuzz_ratio Doubles.Frame
           Doubles.read_text_from_frame analgesic resolved [] 105 []).
  reflexivity.
Defined.

Lemma scan_attempt_effects_witness :
  exists s',
    fst (_perform_scan Fuzz.fuzz_ratio Doubles.Frame
           Doubles.read_text_from_frame analgesic 105
           [("ab", (95 # 100)%Q)] resolved [])
      = Returned s' /\
    last_scan_time s' = 105%float /\
    last_detected_medicine s' = Some "Aspirin" /\
    _should_scan s' 106 = false.
Proof.
  destruct (scan_attempt_effects Fuzz.fuzz_ratio Doubles.Frame
              Doubles.read_text_from_frame analgesic resolved
              [("ab", (95 # 100)%Q)] 105 [])
    as (s' & log' & Hrun & Htime & _ & Hdue & Hkeep).
  exists s'. rewrite Hrun.
  destruct Hkeep as (_ & Hmed & _); [vm_compute; reflexivity|].
  split; [reflexivity|]. split; [exact Htime|]. split; [exact Hmed|].
  rewrite Hdue. reflexivity.
Defined.

(** The difference is the machine's: a scan stamped [2^-60] with an
    interval of 2 is due again at the clock reading 2, the float
    difference being 2. *)
Example should_scan_rounds :
  _should_scan (mkScanner 0x1p-60 2 None None []) 2 = true.
Proof. reflexivity. Qed.

(** A scan whose classification fails still caches the name, with the
    degraded analysis, and moves the time of the last scan. *)
Example scan_with_failed_classification :
  _perform_scan Fuzz.fuzz_ratio Doubles.Frame Doubles.read_text_from_frame
                unreachable 105 [("Ibuprofen", (9 # 10)%Q)] resolved []
  = (Returned (mkScanner 105 2 (Some "Ibuprofen")
                 (Some (mkInfo "Error" "Failed to analyze: Connection error."
                               "Unknown" "Unknown"))
                 (medicine_db resolved)),
     [_create_medicine_analysis_prompt "Ibuprofen"]).
Proof. vm_compute. reflexivity. Qed.

End PipelineProps.

(** ** The scan scheduler *)

Module SchedulerProps.
Import Eff MedicineLLMAnalyzer MedicineScanner Doubles.

(** C2, amended. The reset of [run] empties the cache, that is the last
    detected medicine and its analysis, without a call to the classifier,
    and leaves the time of the last scan and the interval as they were:
    whether an automatic scan is due is what it was before the reset, that
    is, due exactly when the float difference between the clock and the
    time of the last scan attempt reaches the interval. *)
Theorem reset_clears_cache_only (ratio : string -> string -> Z)
  (Frame : Type) (read_text_from_frame : Frame -> list (string * Q))
  (remote : CallLog -> string -> outcome ChatCompletion)
  (frame : Frame) (wait_key : Z) (t_check t_scan : float) (s : Scanner)
  (log : CallLog) :
  Z.land wait_key 255 = ord_r \/ Z.land wait_key 255 = ord_R ->
  exists s',
    run_iteration ratio Frame read_text_from_frame remote
                  (Some frame) wait_key t_check t_scan s log
      = (Returned (Some s'), log) /\
    last_detected_medicine s' = None /\
    last_analysis s' = None /\
    last_scan_time s' = last_scan_time s /\
    scan_interval s' = scan_interval s /\
    (forall now, _should_scan s' now = _should_scan s now) /\
    (forall now,
        _should_scan s' now
          = PrimFloat.leb (scan_interval s)
                          (PrimFloat.sub now (last_scan_time s))).
Proof.
  intro Hkey. exists (reset_detection s).
  split.
  - unfold run_iteration. destruct Hkey as [-> | ->]; reflexivity.
  - do 4 (split; [reflexivity|]). split; intro now; reflexivity.
Qed.

Lemma reset_clears_cache_only_witness :
  exists s',
    fst (run_iteration Fuzz.fuzz_ratio Doubles.Frame
           Doubles.read_text_from_frame unreachable
           (Some blank) ord_r 101 101 resolved [])
      = Returned (Some s') /\
    last_detected_medicine s' = None /\
    _should_scan s' 101 = false.
Proof.
  destruct (reset_clears_cache_only Fuzz.fuzz_ratio Doubles.Frame
              Doubles.read_text_from_frame unreachable
              blank ord_r 101 101 resolved [])
    as (s' & Hrun & Hmed & _ & _ & _ & Hsame & _).
  - left. reflexivity.
  - exists s'. rewrite Hrun. split; [reflexivity|]. split; [exact Hmed|].
    rewrite Hsame. reflexivity.
Defined.

(** C2 as worded fails: one second after a scan, with an interval of two
    seconds, the reset leaves the automatic scan as undue as it was. *)
Lemma reset_not_eligible : ~ reset_then_eligible resolved 101.
Proof.
  intro H. destruct (H (reset_detection resolved) eq_refl) as (_ & _ & Hdue).
  vm_compute in Hdue. discriminate.
Qed.

End SchedulerProps.

(** * Further properties of the code *)

(** ** More on the string primitives *)

Module StrLaws.
Import PyStr StrFacts.

Lemma lower_char_idem (c : ascii) : lower_char (lower_char c) = lower_char c.
Proof.
  destruct c as [[] [] [] [] [] [] [] []]; vm_compute; reflexivity.
Qed.

Lemma lower_idem (s : string) : lower (lower s) = lower s.
Proof.
  induction s as [|c s IH]; simpl; [reflexivity|].
  rewrite lower_char_idem, IH. reflexivity.
Qed.

Lemma rstrip_idem (s : string) : rstrip (rstrip s) = rstrip s.
Proof.
  induction s as [|c s IH]; simpl; [reflexivity|].
  destruct (rstrip s) as [|c' r] eqn:E.
  - destruct (is_space c) eqn:Hc; simpl; [reflexivity|].
    rewrite Hc. reflexivity.
  - simpl. simpl in IH. rewrite IH. reflexivity.
Qed.

Lemma lstrip_head (s : string) (c : ascii) (t : string) :
  lstrip s = String c t -> is_space c = false.
Proof.
  induction s as [|x s IH]; simpl; [discriminate|].
  destruct (is_space x) eqn:Hx; [exact IH|].
  intros [= <- <-]. exact Hx.
Qed.

Lemma rstrip_head (c : ascii) (t : string) :
  is_space c = false -> exists r, rstrip (String c t) = String c r.
Proof.
  intro Hc. simpl. destruct (rstrip t) as [|c' r].
  - rewrite Hc. eauto.
  - eauto.
Qed.

(** Trimming twice is trimming once. *)
Lemma strip_idem (s : string) : strip (strip s) = strip s.
Proof.
  unfold strip. destruct (lstrip s) as [|c t] eqn:E; [reflexivity|].
  apply lstrip_head in E.
  destruct (rstrip_head c t E) as [r Hr].
  rewrite Hr. simpl lstrip. rewrite E, <- Hr. apply rstrip_idem.
Qed.

(** The normal form of a query is the same for the query trimmed or
    lower-cased beforehand. *)
Lemma normal_strip (s : string) : strip (lower (strip s)) = strip (lower s).
Proof. rewrite !strip_lower, strip_idem. reflexivity. Qed.

End StrLaws.

(** ** More on the catalog matcher *)

Module MatcherLaws.
Import PyStr MedicineDatabase StrFacts StrLaws Ranking MatcherProps.

Section Scorer.

Variable ratio : string -> string -> Z.

Lemma first_best_In (key : string) (medicines : list string) (hit : string) :
  first_best ratio key medicines hit -> In hit medicines.
Proof.
  intros (before & after & -> & _). apply in_elt.
Qed.

(** What [search_medicine] returns is an entry of the catalog. *)
Lemma search_medicine_member (medicines : list string) (query : string)
  (threshold : Z) (m : string) :
  search_medicine ratio medicines query threshold = Some m ->
  In m medicines.
Proof.
  unfold search_medicine. destruct medicines as [|m0 rest]; [discriminate|].
  set (medicines := m0 :: rest). set (key := strip (lower query)).
  destruct (exact_pass key medicines) as [hit|] eqn:Ex.
  - intros [= <-]. apply exact_pass_Some in Ex.
    destruct Ex as (before & after & -> & _). apply in_elt.
  - destruct (fuzzy_pass_spec ratio key medicines None 0)
      as [[E _] | (h & E & _ & Hfb)]; rewrite E.
    + destruct (0 >=? threshold)%Z; discriminate.
    + destruct (score_of ratio key h >=? threshold)%Z; [|discriminate].
      intros [= <-]. exact (first_best_In key medicines h Hfb).
Qed.

(** X1. [search_medicine] is sound: what it returns is an entry of the
    catalog, spelled as the catalog spells it, that equals the normalised
    query once lower-cased or scores at least the threshold against it;
    in particular an empty catalog gives nothing. *)
Theorem search_medicine_sound (medicines : list string) (query : string)
  (threshold : Z) (m : string) :
  search_medicine ratio medicines query threshold = Some m ->
  In m medicines /\
  (lower m = strip (lower query) \/
   (threshold <= score_of ratio (strip (lower query)) m)%Z).
Proof.
  intro Hs. split; [exact (search_medicine_member _ _ _ _ Hs)|].
  destruct (exact_pass (strip (lower query)) medicines) as [hit|] eqn:Ex.
  - left. rewrite (search_medicine_exact ratio _ _ threshold _ Ex) in Hs.
    injection Hs as <-. apply exact_pass_Some in Ex.
    destruct Ex as (_ & _ & _ & _ & Hl). exact Hl.
  - right. apply (search_medicine_fuzzy ratio _ _ _ _ Ex) in Hs.
    tauto.
Qed.

(** X2. Two queries with the same trimmed, lower-cased form are the same
    query for [search_medicine] and for [get_best_matches]. *)
Theorem search_medicine_query_normal (medicines : list string)
  (q1 q2 : string) (threshold top_n : Z) :
  lower (strip q1) = lower (strip q2) ->
  search_medicine ratio medicines q1 threshold
    = search_medicine ratio medicines q2 threshold /\
  get_best_matches ratio medicines q1 top_n
    = get_best_matches ratio medicines q2 top_n.
Proof.
  intro H. rewrite <- !strip_lower in H.
  unfold search_medicine, get_best_matches. rewrite H. split; reflexivity.
Qed.

(** X3. Lowering the threshold never loses a match: what is found at a
    threshold is found, the same, at every smaller one. *)
Theorem search_medicine_threshold_mono (medicines : list string)
  (query : string) (threshold threshold' : Z) (m : string) :
  search_medicine ratio medicines query threshold = Some m ->
  (threshold' <= threshold)%Z ->
  search_medicine ratio medicines query threshold' = Some m.
Proof.
  unfold search_medicine. destruct medicines as [|m0 rest]; [discriminate|].
  destruct (exact_pass _ _); [auto|].
  destruct (fuzzy_pass ratio _ _ None 0) as [best_match best_score].
  destruct (Z.geb_spec best_score threshold) as [Hge|Hlt]; [|discriminate].
  intros Hm Hle.
  destruct (Z.geb_spec best_score threshold') as [_|Hlt']; [exact Hm | lia].
Qed.

(** X4. With a threshold that no score reaches, [search_medicine] is the
    exact pass alone. *)
Theorem search_medicine_exact_only (medicines : list string)
  (query : string) (threshold : Z) :
  Forall (fun m => (score_of ratio (strip (lower query)) m < threshold)%Z)
         medicines ->
  search_medicine ratio medicines query threshold
    = exact_pass (strip (lower query)) medicines.
Proof.
  intro Hall. unfold search_medicine.
  destruct medicines as [|m0 rest]; [reflexivity|].
  set (medicines := m0 :: rest) in *. set (key := strip (lower query)) in *.
  destruct (exact_pass key medicines) as [hit|]; [reflexivity|].
  destruct (fuzzy_pass_spec ratio key medicines None 0)
    as [[E _] | (h & E & _ & Hfb)]; rewrite E.
  - destruct (0 >=? threshold)%Z; reflexivity.
  - apply first_best_In in Hfb. rewrite Forall_forall in Hall.
    specialize (Hall h Hfb).
    destruct (Z.geb_spec (score_of ratio key h) threshold); [lia|reflexivity].
Qed.

(** X5. A name that was added is found again: after [add_medicine] of a
    name that is not blank, a search for that name returns an entry equal
    to it up to casing and trimming, at every threshold, and
    [is_valid_medicine] holds. *)
Theorem add_then_search (medicines : list string) (medicine_name : string)
  (threshold : Z) :
  strip medicine_name <> "" ->
  exists hit,
    search_medicine ratio (add_medicine medicines medicine_name)
                    medicine_name threshold = Some hit /\
    lower hit = lower (strip medicine_name) /\
    is_valid_medicine ratio (add_medicine medicines medicine_name)
                      medicine_name threshold = true.
Proof.
  intro Hne. set (name := strip medicine_name) in *.
  assert (Hin : In name (add_medicine medicines medicine_name)).
  { unfold add_medicine. fold name.
    apply str_bool_true in Hne. rewrite Hne. simpl.
    destruct (mem name medicines) eqn:Hm; simpl.
    - apply mem_In. exact Hm.
    - apply in_or_app. right. simpl. auto. }
  destruct (exact_pass_In (lower name) _ name Hin eq_refl) as [hit Hhit].
  assert (Hs : search_medicine ratio (add_medicine medicines medicine_name)
                               medicine_name threshold = Some hit).
  { apply search_medicine_exact. rewrite strip_lower. exact Hhit. }
  exists hit. split; [exact Hs|]. split.
  - apply exact_pass_Some in Hhit.
    destruct Hhit as (_ & _ & _ & _ & Hl). exact Hl.
  - unfold is_valid_medicine. rewrite Hs. reflexivity.
Qed.

End Scorer.

(** X6. Adding the same name twice is adding it once. *)
Theorem add_medicine_idempotent (medicines : list string)
  (medicine_name : string) :
  add_medicine (add_medicine medicines medicine_name) medicine_name
    = add_medicine medicines medicine_name.
Proof.
  unfold add_medicine. set (name := strip medicine_name).
  destruct (str_bool name) eqn:Hb; simpl; [|reflexivity].
  destruct (mem name medicines) eqn:Hm; simpl.
  - rewrite Hm. reflexivity.
  - assert (Hin : mem name (medicines ++ [name]) = true).
    { apply mem_In. apply in_or_app. right. simpl. auto. }
    rewrite Hin. reflexivity.
Qed.

(** X7. [add_medicine] keeps a catalog tidy: when every entry is trimmed,
    every entry still is, and when no entry is empty, none is afterwards. *)
Theorem add_medicine_keeps_trimmed (medicines : list string)
  (medicine_name : string) :
  (Forall Invariants.trimmed medicines ->
   Forall Invariants.trimmed (add_medicine medicines medicine_name)) /\
  (Forall (fun e => e <> "") medicines ->
   Forall (fun e => e <> "") (add_medicine medicines medicine_name)).
Proof.
  unfold add_medicine. set (name := strip medicine_name).
  destruct (str_bool name) eqn:Hb; simpl; [|auto].
  destruct (mem name medicines); simpl; [auto|].
  split; intro H; apply Forall_app; split; auto; constructor; auto.
  - unfold Invariants.trimmed, name. apply strip_idem.
  - apply str_bool_true. exact Hb.
Qed.

Lemma add_medicine_keeps_trimmed_witness :
  Forall Invariants.trimmed (add_medicine ["Aspirin"] "  Ibuprofen ").
Proof.
  apply (proj1 (add_medicine_keeps_trimmed ["Aspirin"] "  Ibuprofen ")).
  repeat constructor.
Defined.

Section TopN.

Variable ratio : string -> string -> Z.


Lemma filter_head_split {A : Type} (f : A -> bool) (l : list A) (h : A)
  (r : list A) :
  filter f l = h :: r ->
  exists b a, l = b ++ h :: a /\ Forall (fun x => f x = false) b.
Proof.
  induction l as [|x l IH]; simpl; [discriminate|].
  destruct (f x) eqn:Hx.
  - intros [= <- _]. exists [], l. auto.
  - intro H. destruct (IH H) as (b & a & -> & Hb).
    exists (x :: b), a. auto.
Qed.

(** The head of the ranking is the first entry with the greatest score. *)
Lemma sort_desc_head (l : list (string * Z)) (h : string * Z)
  (t : list (string * Z)) :
  sort_desc l = h :: t ->
  exists b a,
    l = b ++ h :: a /\
    Forall (fun x => (snd x < snd h)%Z) b /\
    Forall (fun x => (snd x <= snd h)%Z) a.
Proof.
  intro Hs.
  assert (Hmax : Forall (fun x => (snd x <= snd h)%Z) l).
  { pose proof (sort_desc_sorted l) as Hsorted. rewrite Hs in Hsorted.
    inversion Hsorted as [|? ? _ Hall]; subst.
    apply Forall_forall. intros x Hx.
    apply (Permutation_in _ (Permutation_sym (sort_desc_perm l))) in Hx.
    rewrite Hs in Hx. destruct Hx as [<-|Hx]; [lia|].
    rewrite Forall_forall in Hall. specialize (Hall x Hx).
    unfold score_ge in Hall. lia. }
  pose proof (sort_desc_stable (snd h) l) as Hst.
  rewrite Hs in Hst. unfold with_score in Hst. simpl in Hst.
  rewrite Z.eqb_refl in Hst. symmetry in Hst.
  destruct (filter_head_split _ _ _ _ Hst) as (b & a & -> & Hb).
  exists b, a. split; [reflexivity|].
  apply Forall_app in Hmax. destruct Hmax as [Hmb Hma].
  inversion Hma; subst. split; [|assumption].
  rewrite Forall_forall in *. intros x Hx.
  specialize (Hb x Hx). specialize (Hmb x Hx).
  apply Z.eqb_neq in Hb. lia.
Qed.

(** X9. A fuzzy match is the top of the ranking: when no entry equals the
    query up to casing and [search_medicine] still returns a name, that
    name heads [get_best_matches], with a score that reaches the
    threshold. *)
Theorem search_medicine_is_top_match (medicines : list string)
  (query : string) (threshold : Z) (hit : string) :
  exact_pass (strip (lower query)) medicines = None ->
  search_medicine ratio medicines query threshold = Some hit ->
  get_best_matches ratio medicines query 1
    = [(hit, score_of ratio (strip (lower query)) hit)] /\
  (threshold <= score_of ratio (strip (lower query)) hit)%Z.
Proof.
  intros Hex Hs.
  apply (search_medicine_fuzzy ratio _ _ _ _ Hex) in Hs.
  destruct Hs as (Hfb & Hth & _). split; [|exact Hth].
  set (key := strip (lower query)) in *.
  destruct medicines as [|m0 rest].
  { destruct Hfb as (b & a & E & _). destruct b; discriminate. }
  unfold get_best_matches. fold key.
  set (medicines := m0 :: rest) in *.
  destruct (sort_desc (scored ratio key medicines)) as [|h t] eqn:Hsort.
  { pose proof (Permutation_length (sort_desc_perm (scored ratio key medicines)))
      as Hl. rewrite Hsort in Hl. discriminate. }
  destruct (sort_desc_head _ _ _ Hsort) as (b & a & Hsplit & Hb & Ha).
  unfold scored in Hsplit. apply map_eq_app in Hsplit.
  destruct Hsplit as (mb & mrest & Hm & Hmb & Hmrest).
  apply map_eq_cons in Hmrest.
  destruct Hmrest as (m & ma & -> & Hh & Hma).
  assert (Hfb' : first_best ratio key medicines m).
  { exists mb, ma. split; [exact Hm|]. subst b a h. simpl in *.
    split; rewrite Forall_map in *; assumption. }
  rewrite (first_best_unique ratio key medicines hit m Hfb Hfb').
  unfold slice_to. simpl. rewrite <- Hh. reflexivity.
Qed.

End TopN.

Lemma search_medicine_sound_witness :
  In "Aspirin" ["Ibuprofen"; "Aspirin"].
Proof.
  apply (search_medicine_sound Fuzz.fuzz_ratio ["Ibuprofen"; "Aspirin"]
           "Aspirn" 80 "Aspirin").
  vm_compute. reflexivity.
Defined.

Lemma search_medicine_query_normal_witness :
  search_medicine Fuzz.fuzz_ratio ["Aspirin"] "  ASPIRN " 80
  = search_medicine Fuzz.fuzz_ratio ["Aspirin"] "aspirn" 80.
Proof.
  apply (search_medicine_query_normal Fuzz.fuzz_ratio ["Aspirin"]
           "  ASPIRN " "aspirn" 80 5).
  reflexivity.
Defined.

Lemma search_medicine_threshold_mono_witness :
  search_medicine Fuzz.fuzz_ratio ["Aspirin"] "Aspirn" 50 = Some "Aspirin".
Proof.
  apply (search_medicine_threshold_mono Fuzz.fuzz_ratio ["Aspirin"]
           "Aspirn" 90 50 "Aspirin").
  - vm_compute. reflexivity.
  - lia.
Defined.

Lemma search_medicine_exact_only_witness :
  search_medicine Fuzz.fuzz_ratio ["Aspirin"; "Ibuprofen"] "Aspirn" 101
  = None.
Proof.
  rewrite (search_medicine_exact_only Fuzz.fuzz_ratio
             ["Aspirin"; "Ibuprofen"] "Aspirn" 101).
  - reflexivity.
  - repeat constructor; vm_compute; reflexivity.
Defined.

Lemma add_then_search_witness :
  exists hit,
    search_medicine Fuzz.fuzz_ratio (add_medicine ["Aspirin"] " Zyrtec ")
                    " Zyrtec " 101 = Some hit.
Proof.
  destruct (add_then_search Fuzz.fuzz_ratio ["Aspirin"] " Zyrtec " 101)
    as (hit & Hs & _).
  - vm_compute. discriminate.
  - exists hit. exact Hs.
Defined.

Lemma search_medicine_is_top_match_witness :
  get_best_matches Fuzz.fuzz_ratio ["Ibuprofen"; "Aspirin"] "Aspirn" 1
  = [("Aspirin", 92%Z)].
Proof.
  apply (search_medicine_is_top_match Fuzz.fuzz_ratio
           ["Ibuprofen"; "Aspirin"] "Aspirn" 80 "Aspirin").
  - reflexivity.
  - vm_compute. reflexivity.
Defined.

End MatcherLaws.

(** ** More on the response parser and the classifier *)

Module ParserLaws.
Import PyStr Eff MedicineLLMAnalyzer StrFacts StrLaws Labels Invariants.
Import ParserProps ClassifierProps.

Lemma contains_lstrip (c : ascii) (s : string) :
  contains c s = false -> contains c (lstrip s) = false.
Proof.
  induction s as [|x s IH]; simpl; [reflexivity|].
  intro H. apply orb_false_iff in H. destruct H as [Hx Hs].
  destruct (is_space x); [auto|]. simpl. rewrite Hx, Hs. reflexivity.
Qed.

Lemma contains_rstrip (c : ascii) (s : string) :
  contains c s = false -> contains c (rstrip s) = false.
Proof.
  induction s as [|x s IH]; simpl; [reflexivity|].
  intro H. apply orb_false_iff in H. destruct H as [Hx Hs].
  specialize (IH Hs). destruct (rstrip s) as [|y r].
  - destruct (is_space x); simpl; [reflexivity|]. rewrite Hx. reflexivity.
  - simpl in *. rewrite Hx, IH. reflexivity.
Qed.

Lemma contains_strip (c : ascii) (s : string) :
  contains c s = false -> contains c (strip s) = false.
Proof.
  intro H. unfold strip. apply contains_rstrip, contains_lstrip, H.
Qed.

Lemma contains_split_once (c sep : ascii) (s k v : string) :
  split_once sep s = Some (k, v) ->
  contains c s = false -> contains c v = false.
Proof.
  revert k. induction s as [|x s IH]; simpl; intro k; [discriminate|].
  intros Hs Hc. apply orb_false_iff in Hc. destruct Hc as [_ Hc].
  destruct (Ascii.eqb x sep).
  - injection Hs as _ <-. exact Hc.
  - destruct (split_once sep s) as [[k' v']|]; [|discriminate].
    injection Hs as _ <-. exact (IH k' eq_refl Hc).
Qed.

(** No line of a split text holds the separator. *)
Lemma split_lines (sep : ascii) (s : string) :
  Forall (fun l => contains sep l = false) (split sep s).
Proof.
  induction s as [|x s IH]; simpl; [repeat constructor|].
  destruct (Ascii.eqb x sep) eqn:Hx.
  - constructor; [reflexivity | exact IH].
  - destruct (split sep s) as [|w ws]; [repeat constructor; simpl|].
    + rewrite Hx. reflexivity.
    + inversion IH; subst. constructor; [|assumption].
      simpl. rewrite Hx. assumption.
Qed.

Lemma values_in_clean (k : string) (lines : list string) :
  Forall single_line lines -> Forall clean (values_in k lines).
Proof.
  induction 1 as [|line lines Hl _ IH]; [constructor|].
  unfold values_in. simpl. fold (values_in k lines).
  apply Forall_app. split; [|exact IH].
  unfold labelled.
  destruct (split_once colon (strip line)) as [[key value]|] eqn:Hs;
    [|constructor].
  destruct (String.eqb _ k); [|constructor].
  constructor; [|constructor]. split.
  - apply strip_idem.
  - apply contains_strip.
    apply (contains_split_once newline colon _ _ _ Hs).
    apply contains_strip. exact Hl.
Qed.

Lemma last_Forall {A : Type} (P : A -> Prop) (l : list A) (d : A) :
  P d -> Forall P l -> P (last l d).
Proof.
  intros Hd Hl. induction Hl as [|x l Hx Hl IH]; [exact Hd|].
  destruct l; [exact Hx | exact IH].
Qed.

Lemma field_value_clean (k : string) (response_text : string) :
  clean (field_value k response_text).
Proof.
  unfold field_value, values_of. apply last_Forall.
  - split; reflexivity.
  - apply values_in_clean. apply split_lines.
Qed.

Lemma parse_fields (response_text : string) :
  _parse_llm_response response_text =
    mkInfo (field_value "type" response_text)
           (field_value "use" response_text)
           (field_value "class" response_text)
           (field_value "form" response_text).
Proof.
  unfold _parse_llm_response, field_value, values_of.
  apply fold_parse_line.
Qed.

(** X10. Every field of a parsed response is a single line without blank
    at either end, whatever the response. *)
Theorem parse_llm_response_clean (response_text : string) :
  let info := _parse_llm_response response_text in
  clean (type info) /\ clean (use info) /\
  clean (drug_class info) /\ clean (form info).
Proof.
  intro info. unfold info. rewrite parse_fields. simpl.
  repeat split; apply field_value_clean.
Qed.

(** Blanks around a response do not count. *)
Lemma parse_strip (response_text : string) :
  _parse_llm_response (strip response_text)
    = _parse_llm_response response_text.
Proof. unfold _parse_llm_response. rewrite strip_idem. reflexivity. Qed.

Section Client.

Variable remote : CallLog -> string -> outcome ChatCompletion.

Lemma analyze_medicine_answer (medicine_name : string) (log : CallLog)
  (content : string) (others : list (option string)) :
  remote log (_create_medicine_analysis_prompt medicine_name)
    = Returned (mkCompletion (Some content :: others)) ->
  analyze_medicine remote medicine_name log
    = (Returned (_parse_llm_response (strip content)),
       log ++ [_create_medicine_analysis_prompt medicine_name]).
Proof.
  intro H.
  unfold analyze_medicine, try_except, analyze_body, bind,
    chat_completions_create, lift, ret.
  rewrite H. reflexivity.
Qed.

(** X11. When the service answers and its first choice has a content,
    [analyze_medicine] returns the parse of that content, after this one
    call; further choices are not looked at. *)
Theorem analyze_medicine_success (medicine_name : string) (log : CallLog)
  (content : string) (others : list (option string)) :
  remote log (_create_medicine_analysis_prompt medicine_name)
    = Returned (mkCompletion (Some content :: others)) ->
  analyze_medicine remote medicine_name log
    = (Returned (_parse_llm_response content),
       log ++ [_create_medicine_analysis_prompt medicine_name]).
Proof.
  intro H. rewrite (analyze_medicine_answer _ _ _ _ H).
  rewrite parse_strip. reflexivity.
Qed.

(** X12. [get_medicine_type] never raises and calls the service once;
    it returns ["Error"] when the call raises, and the value of the last
    [Type:] line of the first choice, or ["Unknown"], when the service
    answers with one. *)
Theorem get_medicine_type_cases (medicine_name : string) (log : CallLog) :
  let prompt := _create_medicine_analysis_prompt medicine_name in
  exists t,
    get_medicine_type remote medicine_name log
      = (Returned t, log ++ [prompt]) /\
    (forall e, remote log prompt = Raised e -> t = "Error") /\
    (forall content others,
        remote log prompt = Returned (mkCompletion (Some content :: others)) ->
        t = field_value "type" content).
Proof.
  intro prompt. unfold get_medicine_type, bind.
  destruct (analyze_medicine_total remote medicine_name log) as (info & Hrun).
  fold prompt in Hrun. rewrite Hrun. exists (type info).
  split; [reflexivity|]. split.
  - intros e He. revert Hrun.
    unfold analyze_medicine, try_except, analyze_body, bind,
      chat_completions_create, lift, ret.
    fold prompt. rewrite He. intros [= <-]. reflexivity.
  - intros content others Hc.
    rewrite (analyze_medicine_answer medicine_name log content others Hc)
      in Hrun.
    injection Hrun as <-. rewrite parse_strip, parse_fields. reflexivity.
Qed.

End Client.

Import Doubles.

Lemma analyze_medicine_success_witness :
  fst (analyze_medicine analgesic "Aspirin" [])
  = Returned (mkInfo "Analgesic" "Pain relief" "NSAID" "Tablet").
Proof.
  rewrite (analyze_medicine_success analgesic "Aspirin" []
             (join_lines ["Type: Analgesic"; "Use: Pain relief";
                          "Class: NSAID"; "Form: Tablet"]) []).
  - reflexivity.
  - reflexivity.
Defined.

Lemma get_medicine_type_cases_witness :
  fst (get_medicine_type unreachable "Aspirin" []) = Returned "Error".
Proof.
  destruct (get_medicine_type_cases unreachable "Aspirin" [])
    as (t & Hrun & Hfail & _).
  rewrite Hrun. simpl. f_equal.
  apply (Hfail "Connection error."). reflexivity.
Defined.

End ParserLaws.

(** ** More on the text extractor *)

Module ExtractorLaws.
Import PyStr Eff OCRReader.

Lemma split_plain (c : ascii) (s : string) :
  contains c s = false -> split c s = [s].
Proof.
  induction s as [|x s IH]; simpl; [reflexivity|].
  intro H. apply orb_false_iff in H. destruct H as [Hx Hs].
  rewrite Hx, (IH Hs). reflexivity.
Qed.

Lemma split_append (c : ascii) (s t : string) :
  contains c s = false ->
  split c (s ++ String c t)%string = s :: split c t.
Proof.
  induction s as [|x s IH]; simpl.
  - intros _. rewrite Ascii.eqb_refl. reflexivity.
  - intro H. apply orb_false_iff in H. destruct H as [Hx Hs].
    rewrite Hx, (IH Hs). reflexivity.
Qed.

(** Joining with a character that no item holds and splitting at it gives
    the items back. *)
Lemma split_join (c : ascii) (items : list string) :
  items <> [] ->
  Forall (fun item => contains c item = false) items ->
  split c (join (String c EmptyString) items) = items.
Proof.
  intros Hne Hall. induction Hall as [|item rest Hi Hrest IH];
    [contradiction|].
  destruct rest as [|item' rest'].
  - simpl. apply split_plain, Hi.
  - change (join (String c EmptyString) (item :: item' :: rest'))
      with (item ++ String c (join (String c EmptyString) (item' :: rest')))%string.
    rewrite (split_append c _ _ Hi), IH; [reflexivity | discriminate].
Qed.

Section Reader.

Variables Frame BBox : Type.
Variable readtext : Frame -> outcome (list (BBox * string * Q)).

Local Abbreviation read :=
  (read_text_from_frame Frame BBox readtext).

(** X13. What [read_text_from_frame] delivers: observations that all
    reach the threshold, nothing when the engine raises, never more than
    the engine found, and all of it, in the engine's order, when all of
    it reaches the threshold. *)
Theorem read_text_from_frame_delivers (confidence_threshold : Q)
  (frame : Frame) :
  let delivered := read confidence_threshold frame in
  Forall (fun o => (confidence_threshold <= snd o)%Q) delivered /\
  (forall e, readtext frame = Raised e -> delivered = []) /\
  (forall results,
      readtext frame = Returned results ->
      List.length delivered <= List.length results /\
      (Forall (fun r => (confidence_threshold <= snd r)%Q) results ->
       delivered = map (fun r => (snd (fst r), snd r)) results)).
Proof.
  intro delivered. unfold delivered, read_text_from_frame. repeat split.
  - destruct (readtext frame) as [results|e]; [|constructor].
    apply Forall_forall. intros o Ho.
    apply in_map_iff in Ho. destruct Ho as (r & <- & Hr).
    apply filter_In in Hr. destruct Hr as [_ Hr].
    apply Qle_bool_iff. exact Hr.
  - intros e He. rewrite He. reflexivity.
  - rewrite H, length_map. apply filter_length_le.
  - intro Hall. rewrite H. f_equal.
    apply forallb_filter_id. apply forallb_forall.
    rewrite Forall_forall in Hall. intros r Hr.
    apply Qle_bool_iff. exact (Hall r Hr).
Qed.

(** X14. Raising the threshold only takes observations away: what is
    delivered at a higher threshold is what is delivered at a lower one,
    less the observations below the higher. *)
Theorem read_text_from_frame_threshold (t1 t2 : Q) (frame : Frame) :
  (t1 <= t2)%Q ->
  read t2 frame = filter (fun o => Qle_bool t2 (snd o)) (read t1 frame).
Proof.
  intro Hle. unfold read_text_from_frame.
  destruct (readtext frame) as [results|e]; [|reflexivity].
  induction results as [|r results IH]; [reflexivity|].
  simpl. destruct (Qle_bool t2 (snd r)) eqn:H2.
  - assert (H1 : Qle_bool t1 (snd r) = true).
    { apply Qle_bool_iff. apply Qle_bool_iff in H2.
      exact (Qle_trans _ _ _ Hle H2). }
    rewrite H1. simpl. rewrite H2, IH. reflexivity.
  - destruct (Qle_bool t1 (snd r)); simpl; [rewrite H2|]; exact IH.
Qed.

Lemma max_by_confidence_spec (rest : list (string * Q)) :
  forall best,
  exists before after,
    best :: rest = before ++ max_by_confidence best rest :: after /\
    Forall (fun o => (snd o < snd (max_by_confidence best rest))%Q) before /\
    Forall (fun o => (snd o <= snd (max_by_confidence best rest))%Q) after.
Proof.
  induction rest as [|o rest IH]; intro best; simpl.
  - exists [], []. repeat split; constructor.
  - destruct (Qle_bool (snd o) (snd best)) eqn:Hc; simpl.
    + apply Qle_bool_iff in Hc.
      destruct (IH best) as (before & after & E & Hb & Ha).
      destruct before as [|b before]; simpl in E.
      * injection E as E1 E2. subst after. exists [], (o :: rest).
        split; [rewrite <- E1; reflexivity|]. split; [constructor|].
        constructor; [rewrite <- E1; exact Hc | exact Ha].
      * injection E as E1 E2. subst b.
        exists (best :: o :: before), after.
        split; [simpl; do 2 f_equal; exact E2|].
        inversion Hb; subst. split; [|exact Ha].
        constructor; [assumption|]. constructor; [|assumption].
        exact (Qle_lt_trans _ _ _ Hc H1).
    + assert (Hlt : (snd best < snd o)%Q).
      { apply Qnot_le_lt. intro H. apply Qle_bool_iff in H. congruence. }
      destruct (IH o) as (before & after & E & Hb & Ha).
      exists (best :: before), after.
      split; [simpl; rewrite <- E; reflexivity|]. split; [|exact Ha].
      constructor; [|exact Hb].
      destruct before as [|b before]; simpl in E.
      * injection E as E1 _. rewrite <- E1. exact Hlt.
      * injection E as E1 _. subst b. inversion Hb; subst.
        exact (Qlt_trans _ _ _ Hlt H1).
Qed.

(** X15. [get_highest_confidence_text_from_frame] returns nothing exactly
    when nothing is delivered, and otherwise the first of the delivered
    observations with the greatest confidence. *)
Theorem get_highest_confidence_first_max (confidence_threshold : Q)
  (frame : Frame) :
  let delivered := read confidence_threshold frame in
  let highest :=
    get_highest_confidence_text_from_frame Frame BBox readtext
      confidence_threshold frame in
  (highest = None <-> delivered = []) /\
  (forall best,
      highest = Some best ->
      exists before after,
        delivered = before ++ best :: after /\
        Forall (fun o => (snd o < snd best)%Q) before /\
        Forall (fun o => (snd o <= snd best)%Q) after).
Proof.
  intros delivered highest.
  unfold highest, get_highest_confidence_text_from_frame. fold delivered.
  destruct delivered as [|first rest].
  - split; [tauto | discriminate].
  - split; [split; discriminate|].
    intros best [= <-]. apply max_by_confidence_spec.
Qed.

(** X16. [get_all_text_from_frame] is empty when nothing is delivered,
    and with a one-character separator that no delivered text holds, the
    texts are read back from it by splitting at the separator. *)
Theorem get_all_text_split (confidence_threshold : Q) (frame : Frame)
  (c : ascii) :
  let delivered := read confidence_threshold frame in
  let all_text :=
    get_all_text_from_frame Frame BBox readtext confidence_threshold frame
      (String c EmptyString) in
  (delivered = [] -> all_text = EmptyString) /\
  (delivered <> [] ->
   Forall (fun o => contains c (fst o) = false) delivered ->
   split c all_text = map fst delivered).
Proof.
  intros delivered all_text.
  unfold all_text, get_all_text_from_frame. fold delivered. split.
  - intros ->. reflexivity.
  - intros Hne Hall. apply split_join.
    + destruct delivered; [contradiction | discriminate].
    + apply Forall_map. exact Hall.
Qed.

End Reader.

Lemma read_text_from_frame_delivers_witness :
  read_text_from_frame unit unit Doubles.three_texts (1 # 10)%Q tt
  = [("Aspirin", (9 # 10)%Q); ("500", (4 # 10)%Q); ("mg", (9 # 10)%Q)].
Proof.
  destruct (read_text_from_frame_delivers unit unit Doubles.three_texts (1 # 10)%Q tt)
    as (_ & _ & Hall).
  destruct (Hall _ eq_refl) as [_ Hfull].
  rewrite Hfull; [reflexivity|].
  repeat constructor; discriminate.
Defined.

Lemma read_text_from_frame_threshold_witness :
  read_text_from_frame unit unit Doubles.three_texts (1 # 2)%Q tt
  = [("Aspirin", (9 # 10)%Q); ("mg", (9 # 10)%Q)].
Proof.
  rewrite (read_text_from_frame_threshold unit unit Doubles.three_texts
             (1 # 10)%Q (1 # 2)%Q tt).
  - reflexivity.
  - discriminate.
Defined.

Lemma get_highest_confidence_first_max_witness :
  exists before after,
    read_text_from_frame unit unit Doubles.three_texts (1 # 10)%Q tt
    = before ++ ("Aspirin", (9 # 10)%Q) :: after.
Proof.
  destruct (get_highest_confidence_first_max unit unit Doubles.three_texts
              (1 # 10)%Q tt) as [_ H].
  destruct (H ("Aspirin", (9 # 10)%Q) eq_refl) as (before & after & E & _).
  exists before, after. exact E.
Defined.

Lemma get_all_text_split_witness :
  split " " (get_all_text_from_frame unit unit Doubles.three_texts (1 # 10)%Q tt " ")
  = ["Aspirin"; "500"; "mg"].
Proof.
  apply (get_all_text_split unit unit Doubles.three_texts (1 # 10)%Q tt " ").
  - discriminate.
  - repeat constructor.
Defined.

End ExtractorLaws.

(** ** More on the scanner *)

Module ScannerLaws.
Import PyStr Eff MedicineDatabase MedicineLLMAnalyzer MedicineScanner.
Import StrFacts Acceptance Invariants PipelineProps.

Lemma no_command_tests (wait_key : Z) :
  no_command wait_key ->
  ((Z.land wait_key 255 =? ord_q)%Z || (Z.land wait_key 255 =? ord_Q)%Z
     = false) /\
  ((Z.land wait_key 255 =? ord_s)%Z || (Z.land wait_key 255 =? ord_S)%Z
     = false) /\
  ((Z.land wait_key 255 =? ord_r)%Z || (Z.land wait_key 255 =? ord_R)%Z
     = false).
Proof.
  unfold no_command. intro H.
  repeat split; apply orb_false_iff; split; apply Z.eqb_neq;
    intro E; apply H; rewrite E; simpl; tauto.
Qed.

Section Scan.

Variable ratio : string -> string -> Z.
Variable Frame : Type.
Variable read_text_from_frame : Frame -> list (string * Q).
Variable remote : CallLog -> string -> outcome ChatCompletion.

Local Abbreviation detect :=
  (_detect_medicine_from_frame ratio Frame read_text_from_frame).
Local Abbreviation scan :=
  (_perform_scan ratio Frame read_text_from_frame remote).
Local Abbreviation turn :=
  (run_iteration ratio Frame read_text_from_frame remote).

Lemma detect_nonempty (s : Scanner) (frame : Frame) (name : string) :
  detect s frame = Some name -> name <> "".
Proof.
  rewrite (detect_match_observations ratio Frame read_text_from_frame).
  intro H. apply match_observations_truthy in H.
  apply str_bool_true. exact H.
Qed.

(** What a scan leaves, by the outcome of the detection. *)
Lemma scan_cases (now : float) (frame : Frame) (s : Scanner)
  (log : CallLog) :
  (detect s frame = None /\
   scan now frame s log =
     (Returned (mkScanner now (scan_interval s) (last_detected_medicine s)
                          (last_analysis s) (medicine_db s)), log))
  \/
  (exists name analysis,
      detect s frame = Some name /\
      analyze_medicine remote name log =
        (Returned analysis, log ++ [_create_medicine_analysis_prompt name]) /\
      scan now frame s log =
        (Returned (mkScanner now (scan_interval s) (Some name)
                             (Some analysis) (medicine_db s)),
         log ++ [_create_medicine_analysis_prompt name])).
Proof.
  rewrite (perform_scan_unfold ratio Frame read_text_from_frame remote).
  destruct (detect s frame) as [name|].
  - right.
    destruct (ClassifierProps.analyze_medicine_total remote name log)
      as (analysis & Hrun).
    exists name, analysis. split; [reflexivity|]. split; [exact Hrun|].
    cbv zeta. unfold bind. rewrite Hrun. reflexivity.
  - left. split; reflexivity.
Qed.

Lemma scan_coherent (now : float) (frame : Frame) (s s' : Scanner)
  (log log' : CallLog) :
  coherent s -> scan now frame s log = (Returned s', log') -> coherent s'.
Proof.
  intros Hc Hrun.
  destruct (scan_cases now frame s log)
    as [[_ E] | (name & analysis & Hd & _ & E)];
    rewrite E in Hrun; injection Hrun as <- _.
  - exact Hc.
  - right. exists name, analysis. simpl. repeat split.
    exact (detect_nonempty s frame name Hd).
Qed.

(** X17. The two halves of the cache go together. The state [__init__]
    leaves is coherent, every turn of the loop of [run] keeps a coherent
    state coherent, whatever the key, the frame and the clock, and in a
    coherent state the results panel is drawn exactly when a medicine is
    cached. *)
Theorem run_iteration_coherent (capture : option Frame) (wait_key : Z)
  (t_check t_scan : float) (s s' : Scanner) (log log' : CallLog) :
  coherent s ->
  turn capture wait_key t_check t_scan s log = (Returned (Some s'), log') ->
  coherent s' /\
  (draws_results_panel s' = true <-> last_detected_medicine s' <> None) /\
  (forall interval medicines, coherent (initial interval medicines)).
Proof.
  intros Hc Hrun.
  assert (Hc' : coherent s').
  { unfold run_iteration in Hrun.
    destruct capture as [frame|]; [|discriminate].
    destruct (_ || _); [discriminate|].
    assert (Hscan : forall t,
               bind (scan t frame s) (fun s1 => ret (Some s1)) log
                 = (Returned (Some s'), log') -> coherent s').
    { intros t H. unfold bind in H.
      destruct (scan t frame s log) as [[s1|e] log1] eqn:Es;
        [|discriminate].
      injection H as <- _. exact (scan_coherent t frame s s1 log log1 Hc Es). }
    destruct (_ || _); [exact (Hscan _ Hrun)|].
    destruct (_ || _).
    - injection Hrun as <- _. left. split; reflexivity.
    - destruct (_should_scan s t_check); [exact (Hscan _ Hrun)|].
      injection Hrun as <- _. exact Hc. }
  split; [exact Hc'|]. split.
  - unfold draws_results_panel.
    destruct Hc' as [[-> ->] | (name & analysis & -> & Hn & ->)]; simpl.
    + split; [discriminate | congruence].
    + apply str_bool_true in Hn. rewrite Hn. split; [discriminate | reflexivity].
  - intros interval medicines. left. split; reflexivity.
Qed.

(** X18. A turn of the loop calls the classifier at most once, and no
    failure of the classifier escapes the turn: whatever the service
    does, the turn ends with a next state or with the end of the loop.
    When it calls, the prompt is the one for the medicine it caches in
    that turn. Drawing and printing, which the turn also does, are not
    part of this model. *)
Theorem run_iteration_one_call (capture : option Frame) (wait_key : Z)
  (t_check t_scan : float) (s : Scanner) (log : CallLog) :
  exists next log',
    turn capture wait_key t_check t_scan s log = (Returned next, log') /\
    (log' = log \/
     exists name s',
       log' = log ++ [_create_medicine_analysis_prompt name] /\
       next = Some s' /\
       last_detected_medicine s' = Some name).
Proof.
  assert (Hscan : forall t frame,
             exists next log',
               bind (scan t frame s) (fun s1 => ret (Some s1)) log
                 = (Returned next, log') /\
               (log' = log \/
                exists name s',
                  log' = log ++ [_create_medicine_analysis_prompt name] /\
                  next = Some s' /\
                  last_detected_medicine s' = Some name)).
  { intros t frame. unfold bind.
    destruct (scan_cases t frame s log)
      as [[_ E] | (name & analysis & _ & _ & E)]; rewrite E.
    - eexists. eexists. split; [reflexivity|]. left. reflexivity.
    - eexists. eexists. split; [reflexivity|]. right.
      eexists. eexists. split; [reflexivity|]. split; reflexivity. }
  unfold run_iteration.
  destruct capture as [frame|];
    [|exists None, log; split; [reflexivity | left; reflexivity]].
  destruct (_ || _);
    [exists None, log; split; [reflexivity | left; reflexivity]|].
  destruct (_ || _); [apply Hscan|].
  destruct (_ || _);
    [eexists; eexists; split; [reflexivity | left; reflexivity]|].
  destruct (_should_scan s t_check); [apply Hscan|].
  eexists. eexists. split; [reflexivity | left; reflexivity].
Qed.

(** X19. A scan that resolves a medicine overwrites both halves of the
    cache, with that name and the analysis of that name, after exactly
    one call to the classifier; when that call raises, the analysis
    cached is the degraded one. *)
Theorem scan_success_caches (now : float) (frame : Frame) (s : Scanner)
  (log : CallLog) (name : string) :
  detect s frame = Some name ->
  exists analysis,
    scan now frame s log =
      (Returned (mkScanner now (scan_interval s) (Some name)
                           (Some analysis) (medicine_db s)),
       log ++ [_create_medicine_analysis_prompt name]) /\
    fst (analyze_medicine remote name log) = Returned analysis /\
    (forall e,
        remote log (_create_medicine_analysis_prompt name) = Raised e ->
        analysis = error_info e).
Proof.
  intro Hd.
  destruct (scan_cases now frame s log)
    as [[Hn _] | (name' & analysis & Hd' & Ha & E)]; [congruence|].
  assert (name' = name) by congruence. subst name'.
  exists analysis. split; [exact E|]. split; [rewrite Ha; reflexivity|].
  intros e He. revert Ha.
  unfold analyze_medicine, try_except, analyze_body, bind,
    chat_completions_create, lift, ret.
  rewrite He. intros [= <-]. reflexivity.
Qed.

(** X20. A resolved name is never empty, and it is an entry of the
    catalog or the trimmed text of a delivered observation with
    confidence above 0.7 and more than 3 characters. *)
Theorem detect_provenance (s : Scanner) (frame : Frame) (name : string) :
  detect s frame = Some name ->
  name <> "" /\
  (In name (medicine_db s) \/
   exists text confidence,
     In (text, confidence) (read_text_from_frame frame) /\
     name = strip text /\
     (7 # 10 < confidence)%Q /\
     3 < String.length name).
Proof.
  intro Hd. split; [exact (detect_nonempty s frame name Hd)|].
  rewrite (detect_match_observations ratio Frame read_text_from_frame) in Hd.
  apply match_observations_Some in Hd.
  destruct Hd as (before & [text confidence] & after & E & _ & Ha).
  destruct Ha as [[Hs _] | (_ & Hc & Hl & Hn)].
  - left. unfold catalog_answer in Hs.
    exact (MatcherLaws.search_medicine_member ratio _ _ _ _ Hs).
  - right. exists text, confidence. simpl in *. subst name.
    repeat split; auto. rewrite E. apply in_elt.
Qed.

(** X21. With an empty catalog, as a missing database file leaves it,
    the detection is the first delivered observation with confidence above
    0.7 and a trimmed text of more than 3 characters, and that text. *)
Theorem detect_empty_catalog (s : Scanner) (frame : Frame) :
  medicine_db s = [] ->
  detect s frame =
    option_map (fun o => strip (fst o))
      (find (fun o => high_confidence (snd o) (strip (fst o)))
            (read_text_from_frame frame)).
Proof.
  intro Hdb.
  rewrite (detect_match_observations ratio Frame read_text_from_frame), Hdb.
  induction (read_text_from_frame frame) as [|[text confidence] rest IH];
    [reflexivity|].
  simpl. destruct (high_confidence confidence (strip text));
    [reflexivity | exact IH].
Qed.

(** X22. Automatic scans are throttled: after a scan at the clock reading
    [now], manual or automatic, a turn without command key at a clock
    reading whose float difference to [now] does not reach the interval
    changes nothing and calls nothing. *)
Theorem no_rescan_within_interval (now : float) (frame frame' : Frame)
  (s s1 : Scanner) (log log1 : CallLog) (wait_key : Z)
  (t_check t_scan : float) :
  scan now frame s log = (Returned s1, log1) ->
  no_command wait_key ->
  PrimFloat.leb (scan_interval s) (PrimFloat.sub t_check now) = false ->
  turn (Some frame') wait_key t_check t_scan s1 log1
    = (Returned (Some s1), log1).
Proof.
  intros Hscan Hkey Hlt.
  assert (Hs1 : last_scan_time s1 = now /\ scan_interval s1 = scan_interval s).
  { destruct (scan_cases now frame s log)
      as [[_ E] | (name & analysis & _ & _ & E)];
      rewrite E in Hscan; injection Hscan as <- _; split; reflexivity. }
  destruct Hs1 as [Ht Hi].
  destruct (no_command_tests wait_key Hkey) as (Hq & Hs & Hr).
  unfold run_iteration. cbv zeta. rewrite Hq, Hs, Hr.
  assert (Hdue : _should_scan s1 t_check = false).
  { unfold _should_scan. rewrite Ht, Hi. exact Hlt. }
  rewrite Hdue. reflexivity.
Qed.

End Scan.

Import Doubles.

Local Abbreviation turn_on :=
  (run_iteration Fuzz.fuzz_ratio Doubles.Frame Doubles.read_text_from_frame
                 analgesic).
Local Abbreviation detect_on :=
  (_detect_medicine_from_frame Fuzz.fuzz_ratio Doubles.Frame
                               Doubles.read_text_from_frame).

Lemma run_iteration_coherent_witness :
  coherent (mkScanner 105 2 (Some "Ibuprofen")
              (Some (mkInfo "Analgesic" "Pain relief" "NSAID" "Tablet"))
              ["Aspirin"; "Ibuprofen"]).
Proof.
  apply (run_iteration_coherent Fuzz.fuzz_ratio Doubles.Frame
           Doubles.read_text_from_frame analgesic
           (Some [("Ibuprofen", (9 # 10)%Q)]) ord_s 0 105 resolved _
           [] [_create_medicine_analysis_prompt "Ibuprofen"]).
  - right. exists "Aspirin".
    exists (mkInfo "Analgesic" "Pain relief" "NSAID" "Tablet").
    repeat split. discriminate.
  - vm_compute. reflexivity.
Defined.

Lemma scan_success_caches_witness :
  exists analysis,
    fst (_perform_scan Fuzz.fuzz_ratio Doubles.Frame
           Doubles.read_text_from_frame unreachable 105
           [("Ibuprofen", (9 # 10)%Q)] resolved [])
    = Returned (mkScanner 105 2 (Some "Ibuprofen") (Some analysis)
                          ["Aspirin"; "Ibuprofen"]) /\
    analysis = error_info "Connection error.".
Proof.
  destruct (scan_success_caches Fuzz.fuzz_ratio Doubles.Frame
              Doubles.read_text_from_frame unreachable 105
              [("Ibuprofen", (9 # 10)%Q)] resolved [] "Ibuprofen")
    as (analysis & Hrun & _ & Hfail).
  - vm_compute. reflexivity.
  - exists analysis. rewrite Hrun. split; [reflexivity|].
    apply Hfail. reflexivity.
Defined.

Lemma detect_provenance_witness :
  detect_on resolved [("XYZ123", (9 # 10)%Q)] = Some "XYZ123" /\
  "XYZ123" <> "".
Proof.
  assert (Hd : detect_on resolved [("XYZ123", (9 # 10)%Q)] = Some "XYZ123")
    by (vm_compute; reflexivity).
  split; [exact Hd|].
  exact (proj1 (detect_provenance Fuzz.fuzz_ratio Doubles.Frame
                  Doubles.read_text_from_frame resolved
                  [("XYZ123", (9 # 10)%Q)] "XYZ123" Hd)).
Defined.

Lemma detect_empty_catalog_witness :
  detect_on (initial 2 []) [("ab", (99 # 100)%Q); (" Zyrtec ", (8 # 10)%Q)]
  = Some "Zyrtec".
Proof.
  rewrite (detect_empty_catalog Fuzz.fuzz_ratio Doubles.Frame
             Doubles.read_text_from_frame (initial 2 [])
             [("ab", (99 # 100)%Q); (" Zyrtec ", (8 # 10)%Q)]).
  - reflexivity.
  - reflexivity.
Defined.

Lemma no_rescan_within_interval_witness :
  turn_on (Some blank) (-1) 106 106
          (mkScanner 105 2 (last_detected_medicine resolved)
                     (last_analysis resolved) (medicine_db resolved)) []
  = (Returned (Some (mkScanner 105 2 (last_detected_medicine resolved)
                               (last_analysis resolved)
                               (medicine_db resolved))), []).
Proof.
  apply (no_rescan_within_interval Fuzz.fuzz_ratio Doubles.Frame
           Doubles.read_text_from_frame analgesic 105 blank blank
           resolved _ [] [] (-1) 106 106).
  - reflexivity.
  - vm_compute. intuition discriminate.
  - reflexivity.
Defined.

End ScannerLaws.

(** ** The configuration *)

Module ConfigLaws.
Import PyStr ConfigManager.

Lemma lookup_update_same (key : string) (v : json)
  (fields : list (string * json)) :
  lookup key (update key v fields) = Some v.
Proof.
  induction fields as [|[k old] rest IH]; simpl.
  - rewrite String.eqb_refl. reflexivity.
  - destruct (String.eqb k key) eqn:E; simpl; rewrite E; auto.
Qed.

Lemma lookup_update_other (key key' : string) (v : json)
  (fields : list (string * json)) :
  key' <> key ->
  lookup key' (update key v fields) = lookup key' fields.
Proof.
  intro Hne. induction fields as [|[k old] rest IH]; simpl.
  - destruct (String.eqb_spec key key'); [congruence | reflexivity].
  - destruct (String.eqb_spec k key) as [->|Hk]; simpl.
    + destruct (String.eqb_spec key key'); [congruence | reflexivity].
    + rewrite IH. reflexivity.
Qed.

(** X23. Reading a path is reading its first part and then the rest
    from what was found there; when the first part cannot be followed,
    through a missing key or through a value that is no dictionary, the
    result is the default. The empty path reads the whole
    configuration. *)
Theorem get_path_compose (config : json) (keys1 keys2 : list string)
  (default : json) :
  get config (keys1 ++ keys2) default =
    match traverse config keys1 with
    | Ok value => get value keys2 default
    | Err _ => default
    end /\
  get config [] default = config.
Proof.
  split; [|reflexivity].
  revert config. induction keys1 as [|key keys1 IH]; intro config.
  - reflexivity.
  - unfold get in *. simpl.
    destruct (getitem config key) as [v|e].
    + apply IH.
    + destruct e; reflexivity.
Qed.

(** X24. The key of the environment wins and touches nothing else: with
    [OPENAI_API_KEY] set to a string that is not empty and a dictionary
    under ['openai'] in the file, [__init__] succeeds,
    [get_openai_api_key] returns the key of the environment, and every
    path that does not start with ['openai', 'api_key'] reads as in the
    file. *)
Theorem env_api_key_overrides (fields section : list (string * json))
  (key : string) :
  key <> "" ->
  lookup "openai" fields = Some (JObject section) ->
  exists config,
    init (JObject fields) (Some key) = Ok config /\
    get_openai_api_key config = Ok (JString key) /\
    (forall k keys default,
        k <> "openai" ->
        get config (k :: keys) default
          = get (JObject fields) (k :: keys) default) /\
    (forall k keys default,
        k <> "api_key" ->
        get config ("openai" :: k :: keys) default
          = get (JObject fields) ("openai" :: k :: keys) default).
Proof.
  intros Hkey Hsec.
  unfold init, _override_from_env.
  apply StrFacts.str_bool_true in Hkey. simpl truthy. rewrite Hkey.
  simpl getitem. rewrite Hsec. simpl.
  eexists. split; [reflexivity|]. split; [|split].
  - unfold get_openai_api_key, get. simpl.
    rewrite lookup_update_same. simpl. rewrite lookup_update_same. simpl.
    rewrite Hkey. reflexivity.
  - intros k keys default Hk. unfold get. simpl.
    rewrite (lookup_update_other "openai" k _ fields Hk). reflexivity.
  - intros k keys default Hk. unfold get. simpl.
    rewrite lookup_update_same, Hsec. simpl.
    rewrite (lookup_update_other "api_key" k _ section Hk). reflexivity.
Qed.

(** X25. [__init__] gets past the override exactly when the key of the
    environment is unset or empty, in which case the configuration is the
    file's, or the file holds a dictionary under ['openai']; a key in the
    environment alone, without that dictionary, makes it raise. *)
Theorem init_succeeds_iff (loaded : json) (env_api_key : option string) :
  ((exists config, init loaded env_api_key = Ok config) <->
   truthy env_api_key = false \/
   exists fields section,
     loaded = JObject fields /\
     lookup "openai" fields = Some (JObject section)) /\
  (truthy env_api_key = false -> init loaded env_api_key = Ok loaded).
Proof.
  unfold init, _override_from_env. split.
  - destruct (truthy env_api_key) eqn:Ht.
    + apply StrFacts.truthy_inv in Ht. destruct Ht as (key & -> & _).
      split.
      * intros [config H]. right.
        destruct loaded as [| | | | | |fields]; try discriminate.
        simpl in H.
        destruct (lookup "openai" fields) as [v|] eqn:Hl; [|discriminate].
        destruct v as [| | | | | |section]; try discriminate.
        exists fields, section. split; [reflexivity | exact Hl].
      * intros [H | (fields & section & -> & Hl)]; [discriminate|].
        simpl. rewrite Hl. simpl. eexists. reflexivity.
    + split; [auto | intros _; eexists; reflexivity].
  - intros ->. reflexivity.
Qed.

(** X26. [get_openai_api_key] returns a value exactly when the path
    ['openai', 'api_key'] leads to a value that is true; a missing key, an
    empty string, [null], [false] or zero make it raise its
    [ValueError]. *)
Theorem get_openai_api_key_truthy (config : json) (v : json) :
  (get_openai_api_key config = Ok v <->
   traverse config ["openai"; "api_key"] = Ok v /\ json_bool v = true) /\
  ((forall w, traverse config ["openai"; "api_key"] = Ok w ->
              json_bool w = false) ->
   get_openai_api_key config = Err (ValueError missing_key_message)).
Proof.
  unfold get_openai_api_key, get.
  destruct (traverse config ["openai"; "api_key"]) as [w|e].
  - split.
    + destruct (json_bool w) eqn:Hw; simpl; split.
      * intros [= <-]. auto.
      * intros [[= <-] _]. reflexivity.
      * discriminate.
      * intros [[= <-] H]. congruence.
    + intro H. rewrite (H w eq_refl). reflexivity.
  - split.
    + destruct e; simpl; (split; [discriminate | intros [H _]; discriminate]).
    + intros _. destruct e; reflexivity.
Qed.

Lemma env_api_key_overrides_witness :
  exists config,
    init (JObject [("openai", JObject [("api_key", JString "");
                                       ("model", JString "gpt-4")]);
                   ("scanner", JObject [])])
         (Some "sk-test") = Ok config /\
    get_openai_api_key config = Ok (JString "sk-test") /\
    get_openai_model config = JString "gpt-4".
Proof.
  destruct (env_api_key_overrides
              [("openai", JObject [("api_key", JString "");
                                   ("model", JString "gpt-4")]);
               ("scanner", JObject [])]
              [("api_key", JString ""); ("model", JString "gpt-4")]
              "sk-test")
    as (config & Hinit & Hkey & _ & Hsame).
  - discriminate.
  - reflexivity.
  - exists config. split; [exact Hinit|]. split; [exact Hkey|].
    unfold get_openai_model. rewrite Hsame; [reflexivity | discriminate].
Defined.

Lemma init_succeeds_iff_witness :
  init (JObject [("camera", JObject [])]) (Some "") =
  Ok (JObject [("camera", JObject [])]).
Proof.
  apply (proj2 (init_succeeds_iff (JObject [("camera", JObject [])])
                  (Some ""))).
  reflexivity.
Defined.

Lemma get_openai_api_key_truthy_witness :
  get_openai_api_key (JObject [("openai", JObject [("api_key", JNull)])])
  = Err (ValueError missing_key_message).
Proof.
  apply (proj2 (get_openai_api_key_truthy
                  (JObject [("openai", JObject [("api_key", JNull)])]) JNull)).
  intros w [= <-]. reflexivity.
Defined.

(** A key in the environment does not help a file without the
    ['openai'] dictionary. *)
Example init_without_section :
  init (JObject [("camera", JObject [])]) (Some "sk-test")
  = Err (KeyError "openai").
Proof. reflexivity. Qed.

End ConfigLaws.

(** ** The prompt, and a medicine added at run time *)

Module PipelineLaws.
Import PyStr Eff MedicineDatabase MedicineLLMAnalyzer MedicineScanner.
Import StrFacts StrLaws MatcherProps PipelineProps.

Lemma append_length (a b : string) :
  String.length (a ++ b) = String.length a + String.length b.
Proof.
  induction a as [|x a IH]; simpl; [reflexivity|]. rewrite IH. reflexivity.
Qed.

Lemma append_cancel_l (a x y : string) :
  (a ++ x = a ++ y)%string -> x = y.
Proof.
  induction a as [|c a IH]; simpl; [auto|].
  intros [= H]. exact (IH H).
Qed.

Lemma append_cancel_r (b x : string) :
  forall y, (x ++ b = y ++ b)%string -> x = y.
Proof.
  induction x as [|c x IH]; intros [|d y] H; simpl in H.
  - reflexivity.
  - apply (f_equal String.length) in H. simpl in H.
    rewrite append_length in H. lia.
  - apply (f_equal String.length) in H. simpl in H.
    rewrite append_length in H. lia.
  - injection H as -> H. rewrite (IH y H). reflexivity.
Qed.

(** X27. The prompt holds the name as it is given, between a fixed head
    and a fixed tail, so two different names never share a prompt: an
    entry of the call log tells which name was asked about. *)
Theorem prompt_injective (name1 name2 : string) :
  _create_medicine_analysis_prompt name1
    = _create_medicine_analysis_prompt name2 ->
  name1 = name2.
Proof.
  unfold _create_medicine_analysis_prompt. cbn [join_lines].
  intro H. apply append_cancel_l in H.
  repeat (injection H as H).
  exact (append_cancel_r _ _ _ H).
Qed.

Lemma prompt_injective_witness : "Aspirin" = "Aspirin".
Proof.
  apply (prompt_injective "Aspirin" "Aspirin"). reflexivity.
Defined.

Lemma lower_nonempty (s : string) : s <> "" -> lower s <> "".
Proof. destruct s; [congruence | discriminate]. Qed.

Section Scan.

Variable ratio : string -> string -> Z.
Variable Frame : Type.
Variable read_text_from_frame : Frame -> list (string * Q).

(** A search for a name equal, up to casing and blanks, to one that was
    added finds an entry equal to it up to casing. *)
Lemma search_after_add (medicines : list string)
  (medicine_name query : string) (threshold : Z) :
  strip medicine_name <> "" ->
  lower (strip query) = lower (strip medicine_name) ->
  exists hit,
    search_medicine ratio (add_medicine medicines medicine_name)
                    query threshold = Some hit /\
    lower hit = lower (strip medicine_name).
Proof.
  intros Hne Hq. set (name := strip medicine_name) in *.
  assert (Hin : In name (add_medicine medicines medicine_name)).
  { unfold add_medicine. fold name.
    apply str_bool_true in Hne. rewrite Hne. simpl.
    destruct (mem name medicines) eqn:Hm; simpl.
    - apply mem_In. exact Hm.
    - apply in_or_app. right. simpl. auto. }
  destruct (exact_pass_In (lower name) _ name Hin eq_refl) as [hit Hhit].
  exists hit. split.
  - apply search_medicine_exact. rewrite strip_lower, Hq. exact Hhit.
  - apply exact_pass_Some in Hhit.
    destruct Hhit as (_ & _ & _ & _ & Hl). exact Hl.
Qed.

(** X28. A medicine added at run time is recognised from then on: when
    the first delivered observation reads as the added name, up to casing
    and blanks, the detection returns a catalog entry equal to that name
    up to casing, whatever the confidence of the observation. *)
Theorem added_medicine_recognised (s : Scanner) (frame : Frame)
  (medicines : list string) (medicine_name text : string) (confidence : Q)
  (rest : list (string * Q)) :
  strip medicine_name <> "" ->
  medicine_db s = add_medicine medicines medicine_name ->
  read_text_from_frame frame = (text, confidence) :: rest ->
  lower (strip text) = lower (strip medicine_name) ->
  exists hit,
    _detect_medicine_from_frame ratio Frame read_text_from_frame s frame
      = Some hit /\
    In hit (medicine_db s) /\
    lower hit = lower (strip medicine_name).
Proof.
  intros Hne Hdb Hread Htext.
  assert (Hq : lower (strip (strip text)) = lower (strip medicine_name))
    by (rewrite strip_idem; exact Htext).
  destruct (search_after_add medicines medicine_name (strip text) 80 Hne Hq)
    as (hit & Hs & Hl).
  assert (Hhit : hit <> "").
  { intro E. subst hit. simpl in Hl. symmetry in Hl.
    exact (lower_nonempty _ Hne Hl). }
  exists hit. repeat split; [|rewrite Hdb|exact Hl].
  - rewrite (detect_match_observations ratio Frame read_text_from_frame).
    rewrite Hread, Hdb. simpl. rewrite Hs. simpl.
    apply str_bool_true in Hhit. rewrite Hhit. reflexivity.
  - exact (MatcherLaws.search_medicine_member ratio _ _ _ _ Hs).
Qed.

End Scan.

Import Doubles.

Lemma added_medicine_recognised_witness :
  exists hit,
    _detect_medicine_from_frame Fuzz.fuzz_ratio Doubles.Frame
      Doubles.read_text_from_frame
      (mkScanner 0 2 None None (add_medicine ["Aspirin"] "Zyrtec"))
      [(" ZYRTEC ", (51 # 100)%Q)]
    = Some hit /\
    lower hit = "zyrtec".
Proof.
  destruct (added_medicine_recognised Fuzz.fuzz_ratio Doubles.Frame
              Doubles.read_text_from_frame
              (mkScanner 0 2 None None (add_medicine ["Aspirin"] "Zyrtec"))
              [(" ZYRTEC ", (51 # 100)%Q)]
              ["Aspirin"] "Zyrtec" " ZYRTEC " (51 # 100)%Q [])
    as (hit & Hd & _ & Hl).
  - discriminate.
  - reflexivity.
  - reflexivity.
  - reflexivity.
  - exists hit. split; [exact Hd | exact Hl].
Defined.

End PipelineLaws.
